(** * esperoj.storage.s3: the S3 storage adapter

    A shallow embedding of [src/esperoj/storage/s3.py]: the configuration
    merge of [S3Storage.__init__], the eight forwarding operations of
    [S3Storage] and the response iterator [StreamResponse].

    The MinIO client library is not part of the repository.  It is taken as
    a parameter: a record of operations over an abstract remote store, each
    of which either answers or raises an exception.  That exception can be
    the [S3Error] the source's [except] clauses name, or one of any other
    class (a [ValueError] for an argument the library refuses, an error of
    the local disk, a transport error), which those clauses do not catch. *)

From Stdlib Require Import ZArith Lia.
From stdpp Require Import base strings list gmap.

Local Open Scope Z_scope.

(** ** Python values held in the configuration dict *)

Inductive value : Type :=
| VStr (s : string)
| VBool (b : bool)
| VInt (n : Z).

#[global] Instance value_eq_dec : EqDecision value.
Proof. solve_decision. Defined.

(** ** Exceptions *)

(** [minio.error.S3Error]: the error code the server answered with, and the
    text [str(e)] renders. *)
Record S3Error : Type := { code : string; str : string }.

(** The exceptions that can travel through the adapter: the client's
    [S3Error], the builtin classes the source or the client raise, and
    [OtherError] for an exception of any other class, by its name. *)
Inductive exn : Type :=
| ExS3Error (e : S3Error)
| FileNotFoundError (msg : string)
| KeyError (key : string)
| ValueError (msg : string)
| OtherError (class_name msg : string).

Inductive outcome (A : Type) : Type :=
| Returns (a : A)
| Raises (e : exn).
Arguments Returns {A} a.
Arguments Raises {A} e.

(** ** The configuration *)

(** [self.__DEFAULT_CONFIG], s3.py lines 48-57. *)
Definition DEFAULT_CONFIG : gmap string value :=
  <["name" := VStr "S3 Storage"]>
  (<["bucket_name" := VStr "esperoj"]>
  (<["endpoint" := VStr "localhost:9000"]>
  (<["access_key" := VStr "minioadmin"]>
  (<["secret_key" := VStr "minioadmin"]>
  (<["secure" := VBool true]>
  (<["region" := VStr "eu-central-1"]>
  (<["multipart_chunksize" := VInt (2 ^ 20 * 64)]> ∅))))))).

(** Python's [d1 | d2] on dicts: the keys of both, the value of [d2] where
    both have the key.  stdpp's [∪] prefers its left operand. *)
Definition dict_or (d1 d2 : gmap string value) : gmap string value := d2 ∪ d1.

(** [d[key]]: raises [KeyError] on a missing key. *)
Definition getitem (d : gmap string value) (key : string) : outcome value :=
  match d !! key with
  | Some v => Returns v
  | None => Raises (KeyError key)
  end.

(** stdpp's monadic notation over [outcome]: [x ← c; k] runs [k] when [c]
    returns and passes a raised exception on. *)
#[global] Instance outcome_ret : MRet outcome := @Returns.
#[global] Instance outcome_bind : MBind outcome := λ A B k c,
  match c with
  | Returns a => k a
  | Raises e => Raises e
  end.

(** ** The client library (external collaborator) *)

(** Python [bytes]: a string of 8-bit characters. *)
Abbreviation bytes := string (only parsing).

(** [datetime.timedelta(days=n)]. *)
Inductive timedelta : Type := Timedelta (days : Z).

(** An entry of [list_objects] and the answer of [stat_object]. *)
Module Object.
Record t : Type := { object_name : string; size : Z }.
End Object.

(** The response of [get_object]: the chunks its [stream()] generator
    yields, and how often [close()] and [release_conn()] were called. *)
Module HTTPResponse.
Record t : Type :=
  { body : list bytes; close_calls : nat; release_conn_calls : nat }.

Definition stream (r : t) : list bytes := body r.

Definition close (r : t) : t :=
  {| body := body r;
     close_calls := S (close_calls r);
     release_conn_calls := release_conn_calls r |}.

Definition release_conn (r : t) : t :=
  {| body := body r;
     close_calls := close_calls r;
     release_conn_calls := S (release_conn_calls r) |}.
End HTTPResponse.

(** The client's operations, as the adapter calls them.  [W] is the state of
    the remote store; every operation answers or raises an exception, an
    [S3Error] or any other. *)
Record MinioClient (W : Type) : Type :=
  { remove_object : value → string → W → (exn + unit) * W;
    fget_object : value → string → string → W → (exn + unit) * W;
    stat_object : value → string → W → (exn + Object.t) * W;
    presigned_get_object :
      value → string → timedelta → W → (exn + string) * W;
    get_object : value → string → W → (exn + HTTPResponse.t) * W;
    list_objects : value → string → bool → W → (exn + list Object.t) * W;
    fput_object : value → string → string → value → W → (exn + unit) * W }.
Arguments remove_object {W} _ _ _ _.
Arguments fget_object {W} _ _ _ _ _.
Arguments stat_object {W} _ _ _ _.
Arguments presigned_get_object {W} _ _ _ _ _.
Arguments get_object {W} _ _ _ _.
Arguments list_objects {W} _ _ _ _ _.
Arguments fput_object {W} _ _ _ _ _ _.

(** The requests sent to the client, in the order they were issued. *)
Inductive call : Type :=
| RemoveObject (bucket_name : value) (object_name : string)
| FgetObject (bucket_name : value) (object_name file_path : string)
| StatObject (bucket_name : value) (object_name : string)
| PresignedGetObject (bucket_name : value) (object_name : string)
    (expires : timedelta)
| GetObject (bucket_name : value) (object_name : string)
| ListObjects (bucket_name : value) (prefix : string) (recursive : bool)
| FputObject (bucket_name : value) (object_name file_path : string)
    (part_size : value).

(** ** Running a method: remote store, request log, exceptions *)

Record Session (W : Type) : Type := { remote : W; calls : list call }.
Arguments remote {W} _.
Arguments calls {W} _.

Definition M (W A : Type) : Type := Session W → outcome A * Session W.

#[global] Instance M_ret {W} : MRet (M W) := λ A a s, (Returns a, s).
#[global] Instance M_bind {W} : MBind (M W) := λ A B k c s,
  match c s with
  | (Returns a, s') => k a s'
  | (Raises e, s') => (Raises e, s')
  end.

Definition lift {W A} (o : outcome A) : M W A := λ s, (o, s).

Definition raise {W A} (e : exn) : M W A := λ s, (Raises e, s).

(** [try: body / except S3Error as e: handler e].  Other exceptions pass. *)
Definition try_except_S3Error {W A} (body : M W A) (handler : S3Error → M W A)
  : M W A := λ s,
  match body s with
  | (Raises (ExS3Error e), s') => handler e s'
  | r => r
  end.

(** One request to the client: logged, run on the remote store, and the
    exception the client raised, if any, raised in the method. *)
Definition invoke {W A} (c : call) (op : W → (exn + A) * W) : M W A := λ s,
  let (r, w) := op (remote s) in
  (match r with inl x => Raises x | inr a => Returns a end,
   {| remote := w; calls := calls s ++ [c] |}).

(** [for x in xs: body], threading the local variables [acc]. *)
Fixpoint for_each {W A B} (xs : list A) (acc : B) (body : B → A → M W B)
  : M W B :=
  match xs with
  | [] => mret acc
  | x :: xs' => acc' ← body acc x; for_each xs' acc' body
  end.

(** ** class StreamResponse (s3.py lines 12-28) *)

Module StreamResponse.

Record t : Type := { response : HTTPResponse.t; stream : list bytes }.

(** What [next(it)] gives: a chunk, or the [StopIteration] that ends a
    [for] loop over [it]. *)
Inductive next_result : Type :=
| Chunk (chunk : bytes)
| StopIteration.

Definition __init__ (response : HTTPResponse.t) : t :=
  {| response := response; stream := HTTPResponse.stream response |}.

(** [not chunk] on [bytes]: true on the empty chunk only. *)
Definition falsy (chunk : bytes) : bool := bool_decide (chunk = "").

(** [next(self.stream)] raises [StopIteration] itself once the generator is
    exhausted; that exception leaves [__next__] before the release code. *)
Definition __next__ (self : t) : next_result * t :=
  match stream self with
  | [] => (StopIteration, self)
  | chunk :: rest =>
      if falsy chunk then
        (StopIteration,
         {| response :=
              HTTPResponse.release_conn (HTTPResponse.close (response self));
            stream := rest |})
      else (Chunk chunk, {| response := response self; stream := rest |})
  end.

(** The consumer: a [for chunk in it] loop that takes at most [n] chunks
    and then leaves the loop ([break]); the loop also ends at the first
    [StopIteration].  Gives the chunks received and the iterator as the
    consumer leaves it. *)
Fixpoint take_chunks (n : nat) (it : t) : list bytes * t :=
  match n with
  | O => ([], it)
  | S n' =>
      match __next__ it with
      | (StopIteration, it') => ([], it')
      | (Chunk chunk, it') =>
          let (chunks, it'') := take_chunks n' it' in (chunk :: chunks, it'')
      end
  end.

(** The consumer that never leaves early: [for chunk in it] to the end.
    The generator holds finitely many chunks, so one pull more than its
    length meets a [StopIteration]. *)
Definition exhaust (it : t) : list bytes * t :=
  take_chunks (S (length (stream it))) it.

End StreamResponse.

(** ** class S3Storage (s3.py lines 31-204) *)

(** [DeleteFilesResponse] of [esperoj.storage.storage], as [delete_files]
    builds it: [{"errors": [{"path": ..., "message": ...}, ...]}]. *)
Record DeleteFileError : Type := { path : string; message : string }.
Record DeleteFilesResponse : Type := { errors : list DeleteFileError }.

Module S3Storage.
Section WithClient.

Context {W : Type}.

(** The constructor [Minio(endpoint, access_key, secret_key, secure,
    region)] of the client library, on arguments it accepts.  Where the
    library refuses its arguments it raises and no adapter comes to be; the
    properties below are about adapters that were built. *)
Variable Minio : value → value → value → value → value → MinioClient W.

Record t : Type := { config : gmap string value; client : MinioClient W }.

Definition __init__ (config : gmap string value) : outcome t :=
  let config := dict_or DEFAULT_CONFIG config in
  endpoint ← getitem config "endpoint";
  access_key ← getitem config "access_key";
  secret_key ← getitem config "secret_key";
  secure ← getitem config "secure";
  region ← getitem config "region";
  mret {| config := config;
          client := Minio endpoint access_key secret_key secure region |}.

Definition delete_files (self : t) (paths : list string)
  : M W DeleteFilesResponse :=
  errors ← for_each paths [] (λ errors path,
    try_except_S3Error
      (bucket_name ← lift (getitem (config self) "bucket_name");
       _ ← invoke (RemoveObject bucket_name path)
             (remove_object (client self) bucket_name path);
       mret errors)
      (λ e, mret (errors ++ [{| path := path; message := str e |}])));
  mret {| errors := errors |}.

Definition download_file (self : t) (src dst : string) : M W unit :=
  bucket_name ← lift (getitem (config self) "bucket_name");
  invoke (FgetObject bucket_name src dst)
    (fget_object (client self) bucket_name src dst).

Definition file_exists (self : t) (path : string) : M W bool :=
  try_except_S3Error
    (bucket_name ← lift (getitem (config self) "bucket_name");
     _ ← invoke (StatObject bucket_name path)
           (stat_object (client self) bucket_name path);
     mret true)
    (λ e, if bool_decide (code e = "NoSuchKey") then mret false
          else raise (ExS3Error e)).

Definition get_link (self : t) (path : string) : M W string :=
  exists_ ← file_exists self path;
  if negb exists_ then
    raise (FileNotFoundError ("No such file: '" +:+ path +:+ "'"))
  else
    bucket_name ← lift (getitem (config self) "bucket_name");
    invoke (PresignedGetObject bucket_name path (Timedelta 7))
      (presigned_get_object (client self) bucket_name path (Timedelta 7)).

Definition get_file (self : t) (src : string) : M W StreamResponse.t :=
  bucket_name ← lift (getitem (config self) "bucket_name");
  response ← invoke (GetObject bucket_name src)
               (get_object (client self) bucket_name src);
  mret (StreamResponse.__init__ response).

Definition list_files (self : t) (path : string) : M W (list string) :=
  bucket_name ← lift (getitem (config self) "bucket_name");
  objects ← invoke (ListObjects bucket_name path true)
              (list_objects (client self) bucket_name path true);
  let files := map Object.object_name objects in
  if bool_decide (files = []) then
    raise (FileNotFoundError ("No such directory: '" +:+ path +:+ "'"))
  else mret files.

Definition upload_file (self : t) (src dst : string) : M W unit :=
  try_except_S3Error
    (bucket_name ← lift (getitem (config self) "bucket_name");
     part_size ← lift (getitem (config self) "multipart_chunksize");
     invoke (FputObject bucket_name dst src part_size)
       (fput_object (client self) bucket_name dst src part_size))
    (λ e, raise (ExS3Error e)).

(** [if stats.size] on an [int]: false on zero only. *)
Definition size (self : t) (src : string) : M W Z :=
  try_except_S3Error
    (bucket_name ← lift (getitem (config self) "bucket_name");
     stats ← invoke (StatObject bucket_name src)
               (stat_object (client self) bucket_name src);
     if bool_decide (Object.size stats = 0) then raise (FileNotFoundError "")
     else mret (Object.size stats))
    (λ e, raise (ExS3Error e)).

End WithClient.
Arguments t W : clear implicits.
End S3Storage.

(** ** An in-memory client

    A stand-in for the client library with one bucket held in memory, on
    which the adapter can be run: objects are stored as the chunks a read
    streams back (an empty chunk marks the end of a body where the server
    sends one), a locked object refuses removal, and [files] is the local
    disk [fput_object] reads from.  Like the library, it raises [ValueError]
    on an empty object name and [FileNotFoundError] on a local file that
    does not exist; neither is an [S3Error]. *)

Module MemoryStore.

Record object : Type := { key : string; chunks : list bytes; locked : bool }.

Record t : Type := { objects : list object; files : list (string * bytes) }.

Definition NoSuchKey : S3Error :=
  {| code := "NoSuchKey";
     str := "S3 operation failed; code: NoSuchKey, message: Object does not exist" |}.

Definition AccessDenied : S3Error :=
  {| code := "AccessDenied";
     str := "S3 operation failed; code: AccessDenied, message: Access Denied." |}.

Definition has_key (k : string) (o : object) : bool := bool_decide (key o = k).

Definition lookup_object (k : string) (w : t) : option object :=
  List.find (has_key k) (objects w).

Definition byte_size (o : object) : Z :=
  Z.of_nat (String.length (String.concat "" (chunks o))).

Definition entry (o : object) : Object.t :=
  {| Object.object_name := key o; Object.size := byte_size o |}.

Definition without (k : string) (w : t) : t :=
  {| objects := List.filter (λ o, negb (has_key k o)) (objects w);
     files := files w |}.

Definition read_file (p : string) (w : t) : option bytes :=
  snd <$> List.find (λ f, bool_decide (f.1 = p)) (files w).

(** The library refuses an empty object name before it sends anything. *)
Definition named {A} (k : string) (w : t) (answer : (exn + A) * t)
  : (exn + A) * t :=
  if bool_decide (k = "") then (inl (ValueError ""), w) else answer.

(** Reading the local file to upload fails on a path that does not exist,
    before anything is sent. *)
Definition reading {A} (p : string) (w : t) (answer : bytes → (exn + A) * t)
  : (exn + A) * t :=
  match read_file p w with
  | Some content => answer content
  | None =>
      (inl (FileNotFoundError
              ("[Errno 2] No such file or directory: '" +:+ p +:+ "'")), w)
  end.

Definition client : MinioClient t :=
  {| remove_object := λ _ k w, named k w
       match lookup_object k w with
       | Some o => if locked o then (inl (ExS3Error AccessDenied), w)
                   else (inr tt, without k w)
       | None => (inr tt, w)
       end;
     fget_object := λ _ k _ w, named k w
       match lookup_object k w with
       | Some _ => (inr tt, w)
       | None => (inl (ExS3Error NoSuchKey), w)
       end;
     stat_object := λ _ k w, named k w
       match lookup_object k w with
       | Some o => (inr (entry o), w)
       | None => (inl (ExS3Error NoSuchKey), w)
       end;
     presigned_get_object := λ _ k _ w, named k w
       (inr ("https://localhost:9000/esperoj/" +:+ k +:+ "?X-Amz-Signature=0"),
        w);
     get_object := λ _ k w, named k w
       match lookup_object k w with
       | Some o =>
           (inr {| HTTPResponse.body := chunks o;
                   HTTPResponse.close_calls := 0;
                   HTTPResponse.release_conn_calls := 0 |}, w)
       | None => (inl (ExS3Error NoSuchKey), w)
       end;
     list_objects := λ _ prefix _ w,
       (inr (map entry
               (List.filter (λ o, String.prefix prefix (key o)) (objects w))),
        w);
     fput_object := λ _ k p _ w, named k w (reading p w (λ content,
       match lookup_object k w with
       | Some o =>
           if locked o then (inl (ExS3Error AccessDenied), w)
           else (inr tt,
                 {| objects :=
                      {| key := k; chunks := [content]; locked := false |}
                      :: objects (without k w);
                    files := files w |})
       | None =>
           (inr tt,
            {| objects :=
                 {| key := k; chunks := [content]; locked := false |}
                 :: objects w;
               files := files w |})
       end)) |}.

Definition InvalidAccessKeyId : S3Error :=
  {| code := "InvalidAccessKeyId";
     str := "S3 operation failed; code: InvalidAccessKeyId, message: The Access Key Id you provided does not exist in our records." |}.

(** What a caller with unknown credentials is answered. *)
Definition rejecting : MinioClient t :=
  {| remove_object := λ _ k w, named k w (inl (ExS3Error InvalidAccessKeyId), w);
     fget_object := λ _ k _ w, named k w (inl (ExS3Error InvalidAccessKeyId), w);
     stat_object := λ _ k w, named k w (inl (ExS3Error InvalidAccessKeyId), w);
     presigned_get_object := λ _ k _ w, named k w
       (inr ("https://localhost:9000/esperoj/" +:+ k +:+ "?X-Amz-Signature=0"),
        w);
     get_object := λ _ k w, named k w (inl (ExS3Error InvalidAccessKeyId), w);
     list_objects := λ _ _ _ w, (inl (ExS3Error InvalidAccessKeyId), w);
     fput_object := λ _ k p _ w, named k w (reading p w (λ _,
       (inl (ExS3Error InvalidAccessKeyId), w))) |}.

(** The store knows one account, the one of the default configuration. *)
Definition Minio (endpoint access_key secret_key secure region : value)
  : MinioClient t :=
  if bool_decide (access_key = VStr "minioadmin"
                  ∧ secret_key = VStr "minioadmin")
  then client else rejecting.

(** A bucket with three keys, one of them empty and one locked. *)
Definition sample : t :=
  {| objects :=
       [ {| key := "a/1"; chunks := ["hello "; "world"; ""]; locked := false |};
         {| key := "a/2"; chunks := []; locked := false |};
         {| key := "b/1"; chunks := ["x"]; locked := true |} ];
     files := [("/tmp/report.txt", "report")] |}.

(** The adapter the constructor builds over this store from the user
    mapping [user], when the credentials are the store's. *)
Definition adapter (user : gmap string value) : S3Storage.t t :=
  {| S3Storage.config := dict_or DEFAULT_CONFIG user;
     S3Storage.client := client |}.

(** The adapter built from a user mapping with credentials the store does
    not know. *)
Definition stranger : gmap string value :=
  <["access_key" := VStr "mallory"]> ∅.

Definition rejected_adapter : S3Storage.t t :=
  {| S3Storage.config := dict_or DEFAULT_CONFIG stranger;
     S3Storage.client := rejecting |}.

(** A user mapping that sets the part size of uploads to 5 MiB. *)
Definition small_parts : gmap string value :=
  <["multipart_chunksize" := VInt (5 * 1024 * 1024)]> ∅.

End MemoryStore.

(** A session that starts on the remote store [w] with nothing sent yet,
    and a method run on it. *)
Definition session {W} (w : W) : Session W := {| remote := w; calls := [] |}.

Definition run {W A} (m : M W A) (w : W) : outcome A * Session W :=
  m (session w).

(** ** What the client answered to a bulk removal *)

(** The client's answer to the removal of each path in turn, each removal
    acting on the store the previous one left. *)
Fixpoint removals {W} (client : MinioClient W) (bucket_name : value)
    (paths : list string) (w : W) : list (string * (exn + unit)) * W :=
  match paths with
  | [] => ([], w)
  | p :: ps =>
      let (r, w1) := remove_object client bucket_name p w in
      let (rs, w2) := removals client bucket_name ps w1 in
      ((p, r) :: rs, w2)
  end.

(** The error entry of a removal that failed with an [S3Error]. *)
Definition failure (a : string * (exn + unit)) : option DeleteFileError :=
  match a.2 with
  | inl (ExS3Error e) => Some {| path := a.1; message := str e |}
  | _ => None
  end.

(** A removal the loop of [delete_files] gets past: it succeeded, or it
    failed with the [S3Error] the loop catches. *)
Definition handled (a : string * (exn + unit)) : Prop :=
  match a.2 with
  | inr _ | inl (ExS3Error _) => True
  | inl _ => False
  end.

(** ** What a consumer of a stream can receive *)

(** The chunks of a body before its first empty chunk. *)
Fixpoint until_empty (chunks : list bytes) : list bytes :=
  match chunks with
  | [] => []
  | chunk :: rest =>
      if StreamResponse.falsy chunk then [] else chunk :: until_empty rest
  end.

(** The body of the loop of [delete_files], under a name. *)
Definition delete_step {W} (self : S3Storage.t W)
    (errors : list DeleteFileError) (path : string)
  : M W (list DeleteFileError) :=
  try_except_S3Error
    (bucket_name ← lift (getitem (S3Storage.config self) "bucket_name");
     _ ← invoke (RemoveObject bucket_name path)
           (remove_object (S3Storage.client self) bucket_name path);
     mret errors)
    (λ e, mret (errors ++ [{| path := path; message := str e |}])).

(** * Properties *)

(** ** The configuration merge *)

Lemma lookup_dict_or (d1 d2 : gmap string value) (k : string) :
  dict_or d1 d2 !! k = match d2 !! k with Some v => Some v | None => d1 !! k end.
Proof.
  unfold dict_or. rewrite lookup_union.
  destruct (d2 !! k) as [v|], (d1 !! k) as [v'|]; reflexivity.
Qed.

Lemma getitem_dict_or_default (user : gmap string value) (k : string) (d : value) :
  DEFAULT_CONFIG !! k = Some d →
  ∃ v, getitem (dict_or DEFAULT_CONFIG user) k = Returns v
       ∧ v = default d (user !! k).
Proof.
  intros Hd. unfold getitem. rewrite lookup_dict_or, Hd.
  destruct (user !! k) as [v|]; eauto.
Qed.

Section Adapter.

Context {W : Type}.
Variable Minio : value → value → value → value → value → MinioClient W.

(** Reading the five arguments of the client never raises [KeyError]: the
    defaults hold every key the constructor reads. *)
Lemma init_returns (user : gmap string value) :
  ∃ self, S3Storage.__init__ Minio user = Returns self
          ∧ S3Storage.config self = dict_or DEFAULT_CONFIG user.
Proof.
  unfold S3Storage.__init__.
  destruct (getitem_dict_or_default user "endpoint" (VStr "localhost:9000"))
    as (v1 & -> & _); [done|].
  destruct (getitem_dict_or_default user "access_key" (VStr "minioadmin"))
    as (v2 & -> & _); [done|].
  destruct (getitem_dict_or_default user "secret_key" (VStr "minioadmin"))
    as (v3 & -> & _); [done|].
  destruct (getitem_dict_or_default user "secure" (VBool true))
    as (v4 & -> & _); [done|].
  destruct (getitem_dict_or_default user "region" (VStr "eu-central-1"))
    as (v5 & -> & _); [done|].
  eexists. split; reflexivity.
Qed.

(** Every adapter the constructor builds has a bucket name and a chunk
    size to read. *)
Lemma init_getitem (user : gmap string value) (self : S3Storage.t W)
    (k : string) (d : value) :
  S3Storage.__init__ Minio user = Returns self →
  DEFAULT_CONFIG !! k = Some d →
  getitem (S3Storage.config self) k = Returns (default d (user !! k)).
Proof.
  intros Hinit Hd.
  destruct (init_returns user) as (self' & Hinit' & Hcfg).
  rewrite Hinit in Hinit'. injection Hinit' as <-.
  rewrite Hcfg.
  destruct (getitem_dict_or_default user k d Hd) as (v & -> & ->). reflexivity.
Qed.

(** C1. The configuration of the adapter built from a user mapping is the
    default mapping overridden key by key: a key of the user mapping has the
    user's value, any other key has its default, and the defaults are
    name "S3 Storage", bucket_name "esperoj", endpoint "localhost:9000",
    secure true, region "eu-central-1" and multipart_chunksize 64 MiB. *)
Theorem init_config_right_biased (user : gmap string value) :
  ∃ self, S3Storage.__init__ Minio user = Returns self
    ∧ (∀ k, S3Storage.config self !! k
            = match user !! k with Some v => Some v | None => DEFAULT_CONFIG !! k end)
    ∧ DEFAULT_CONFIG !! "name" = Some (VStr "S3 Storage")
    ∧ DEFAULT_CONFIG !! "bucket_name" = Some (VStr "esperoj")
    ∧ DEFAULT_CONFIG !! "endpoint" = Some (VStr "localhost:9000")
    ∧ DEFAULT_CONFIG !! "secure" = Some (VBool true)
    ∧ DEFAULT_CONFIG !! "region" = Some (VStr "eu-central-1")
    ∧ DEFAULT_CONFIG !! "multipart_chunksize" = Some (VInt (64 * 1024 * 1024)).
Proof.
  destruct (init_returns user) as (self & Hinit & Hcfg).
  exists self. split; [exact Hinit|]. split.
  - intros k. rewrite Hcfg. apply lookup_dict_or.
  - repeat split; reflexivity.
Qed.

(** ** Running the monad *)

Lemma invoke_run {A} (c : call) (op : W → (exn + A) * W) (s : Session W) :
  invoke c op s
  = (match (op (remote s)).1 with
     | inl x => Raises x
     | inr a => Returns a
     end,
     {| remote := (op (remote s)).2; calls := calls s ++ [c] |}).
Proof. unfold invoke. destruct (op (remote s)) as [r w]. reflexivity. Qed.

(** ** file_exists *)

(** What [file_exists] does, by the answer of the metadata probe. *)
Lemma file_exists_run (self : S3Storage.t W) (bucket_name : value)
    (path : string) (s : Session W) :
  getitem (S3Storage.config self) "bucket_name" = Returns bucket_name →
  S3Storage.file_exists self path s
  = (match (stat_object (S3Storage.client self) bucket_name path (remote s)).1 with
     | inr _ => Returns true
     | inl (ExS3Error e) =>
         if bool_decide (code e = "NoSuchKey") then Returns false
         else Raises (ExS3Error e)
     | inl x => Raises x
     end,
     {| remote := (stat_object (S3Storage.client self) bucket_name path (remote s)).2;
        calls := calls s ++ [StatObject bucket_name path] |}).
Proof.
  intros Hb. unfold S3Storage.file_exists, try_except_S3Error, mbind, M_bind, lift.
  rewrite Hb, invoke_run.
  destruct (stat_object _ _ _ _) as [[[e| | | |]|stats] w]; simpl; try reflexivity.
  destruct (bool_decide (code e = "NoSuchKey")); reflexivity.
Qed.


(** ** get_link *)

(** C6. When [file_exists] answers false, [get_link] raises
    [FileNotFoundError] and the client has been asked for the metadata probe
    only, not for a signed URL; when it answers true, the client is asked
    for a signed URL of the path with an expiry of seven days and its answer
    is what [get_link] returns. *)
Theorem get_link_checks_existence_first (user : gmap string value)
    (self : S3Storage.t W) (path : string) (s : Session W) :
  S3Storage.__init__ Minio user = Returns self →
  let bucket_name := default (VStr "esperoj") (user !! "bucket_name") in
  (∀ s1, S3Storage.file_exists self path s = (Returns false, s1) →
     S3Storage.get_link self path s
     = (Raises (FileNotFoundError ("No such file: '" +:+ path +:+ "'")), s1)
     ∧ calls s1 = calls s ++ [StatObject bucket_name path])
  ∧ (∀ s1 url w2, S3Storage.file_exists self path s = (Returns true, s1) →
     presigned_get_object (S3Storage.client self) bucket_name path (Timedelta 7)
       (remote s1) = (inr url, w2) →
     S3Storage.get_link self path s
     = (Returns url,
        {| remote := w2;
           calls := calls s ++ [StatObject bucket_name path;
                                PresignedGetObject bucket_name path (Timedelta 7)] |})).
Proof.
  intros Hinit bucket_name.
  pose proof (init_getitem user self "bucket_name" (VStr "esperoj") Hinit eq_refl) as Hb.
  fold bucket_name in Hb.
  split.
  - intros s1 Hex. unfold S3Storage.get_link, mbind, M_bind. rewrite Hex. simpl.
    split; [reflexivity|].
    rewrite (file_exists_run self bucket_name path s Hb) in Hex.
    injection Hex as _ <-. reflexivity.
  - intros s1 url w2 Hex Hurl. unfold S3Storage.get_link, mbind, M_bind.
    rewrite Hex. simpl. unfold lift. rewrite Hb, invoke_run, Hurl. simpl.
    rewrite (file_exists_run self bucket_name path s Hb) in Hex.
    injection Hex as _ <-. simpl. rewrite <- app_assoc. reflexivity.
Qed.

(** ** size *)

(** What [size] does, by the answer of the metadata probe. *)
Lemma size_run (self : S3Storage.t W) (bucket_name : value) (src : string)
    (s : Session W) :
  getitem (S3Storage.config self) "bucket_name" = Returns bucket_name →
  S3Storage.size self src s
  = (match (stat_object (S3Storage.client self) bucket_name src (remote s)).1 with
     | inr stats => if bool_decide (Object.size stats = 0)
                    then Raises (FileNotFoundError "")
                    else Returns (Object.size stats)
     | inl x => Raises x
     end,
     {| remote := (stat_object (S3Storage.client self) bucket_name src (remote s)).2;
        calls := calls s ++ [StatObject bucket_name src] |}).
Proof.
  intros Hb. unfold S3Storage.size, try_except_S3Error, mbind, M_bind, lift.
  rewrite Hb, invoke_run.
  destruct (stat_object _ _ _ _) as [[[e| | | |]|stats] w]; simpl;
    try reflexivity.
  destruct (bool_decide (Object.size stats = 0)); reflexivity.
Qed.

(** C7. Where the metadata probe reports an object of [N] bytes, [N > 0],
    [size] returns [N].  Where the probe fails with an [S3Error], as it does
    with the code "NoSuchKey" for a key that is not in the bucket, [size]
    raises that [S3Error]: it does not raise [FileNotFoundError]. *)
Theorem size_of_object_and_of_missing_key (user : gmap string value)
    (self : S3Storage.t W) (src : string) (s : Session W) :
  S3Storage.__init__ Minio user = Returns self →
  let bucket_name := default (VStr "esperoj") (user !! "bucket_name") in
  let probe := (stat_object (S3Storage.client self) bucket_name src (remote s)).1 in
  let result := (S3Storage.size self src s).1 in
  (∀ stats, probe = inr stats → Object.size stats > 0 →
     result = Returns (Object.size stats))
  ∧ (∀ e, probe = inl (ExS3Error e) → code e = "NoSuchKey" →
     result = Raises (ExS3Error e) ∧ ∀ msg, result ≠ Raises (FileNotFoundError msg)).
Proof.
  intros Hinit bucket_name probe result.
  pose proof (init_getitem user self "bucket_name" (VStr "esperoj") Hinit eq_refl) as Hb.
  subst result. rewrite (size_run self bucket_name src s Hb). simpl. fold probe.
  split.
  - intros stats -> HN. rewrite bool_decide_eq_false_2 by lia. reflexivity.
  - intros e -> _. split; [reflexivity|]. intros msg [=].
Qed.


(** ** upload_file *)

(** C9. [upload_file] sends the client exactly one request: a put of the
    local file [src] under the key [dst] of the configured bucket, with the
    configured [multipart_chunksize] as part size.  It returns when the
    client answers and raises what the client raised, its [S3Error]
    unchanged, when the client fails. *)
Theorem upload_file_one_put (user : gmap string value) (self : S3Storage.t W)
    (src dst : string) (s : Session W) :
  S3Storage.__init__ Minio user = Returns self →
  ∃ bucket_name part_size,
    S3Storage.config self !! "bucket_name" = Some bucket_name
    ∧ S3Storage.config self !! "multipart_chunksize" = Some part_size
    ∧ calls (S3Storage.upload_file self src dst s).2
      = calls s ++ [FputObject bucket_name dst src part_size]
    ∧ remote (S3Storage.upload_file self src dst s).2
      = (fput_object (S3Storage.client self) bucket_name dst src part_size
           (remote s)).2
    ∧ (S3Storage.upload_file self src dst s).1
      = match (fput_object (S3Storage.client self) bucket_name dst src
                 part_size (remote s)).1 with
        | inr _ => Returns tt
        | inl x => Raises x
        end.
Proof.
  intros Hinit.
  pose proof (init_getitem user self "bucket_name" (VStr "esperoj") Hinit eq_refl) as Hb.
  pose proof (init_getitem user self "multipart_chunksize" (VInt (2 ^ 20 * 64))
                Hinit eq_refl) as Hp.
  exists (default (VStr "esperoj") (user !! "bucket_name")),
         (default (VInt (2 ^ 20 * 64)) (user !! "multipart_chunksize")).
  split; [|split].
  - unfold getitem in Hb. destruct (S3Storage.config self !! "bucket_name"); congruence.
  - unfold getitem in Hp.
    destruct (S3Storage.config self !! "multipart_chunksize"); congruence.
  - unfold S3Storage.upload_file, try_except_S3Error, mbind, M_bind, lift.
    rewrite Hb, Hp, invoke_run.
    destruct (fput_object _ _ _ _ _ _) as [[[e| | | |]|[]] w]; simpl; auto.
Qed.

(** ** list_files *)

(** What [list_files] does, by the answer of the listing. *)
Lemma list_files_run (self : S3Storage.t W) (bucket_name : value)
    (path : string) (s : Session W) :
  getitem (S3Storage.config self) "bucket_name" = Returns bucket_name →
  S3Storage.list_files self path s
  = (match (list_objects (S3Storage.client self) bucket_name path true (remote s)).1 with
     | inr objects =>
         if bool_decide (map Object.object_name objects = [])
         then Raises (FileNotFoundError ("No such directory: '" +:+ path +:+ "'"))
         else Returns (map Object.object_name objects)
     | inl x => Raises x
     end,
     {| remote := (list_objects (S3Storage.client self) bucket_name path true (remote s)).2;
        calls := calls s ++ [ListObjects bucket_name path true] |}).
Proof.
  intros Hb. unfold S3Storage.list_files, mbind, M_bind, lift.
  rewrite Hb, invoke_run.
  destruct (list_objects _ _ _ _ _) as [[e|objects] w]; simpl; [reflexivity|].
  destruct (bool_decide (map Object.object_name objects = [])); reflexivity.
Qed.

(** C5. Let the client answer a recursive listing under a prefix with the
    entries of exactly those keys of the bucket that start with the prefix.
    Then [list_files] either returns the names of these entries, which are
    exactly the keys of the bucket that start with the prefix and of which
    there is at least one, or it raises [FileNotFoundError], and it does so
    exactly when no key of the bucket starts with the prefix. *)
Theorem list_files_keys_or_not_found (user : gmap string value)
    (self : S3Storage.t W) (prefix : string) (s : Session W)
    (keys : list string) (objects : list Object.t) (w : W) :
  S3Storage.__init__ Minio user = Returns self →
  list_objects (S3Storage.client self)
    (default (VStr "esperoj") (user !! "bucket_name")) prefix true (remote s)
  = (inr objects, w) →
  (∀ k, k ∈ map Object.object_name objects
        ↔ k ∈ keys ∧ String.prefix prefix k = true) →
  match (S3Storage.list_files self prefix s).1 with
  | Returns files =>
      files = map Object.object_name objects
      ∧ files ≠ []
      ∧ ∀ k, k ∈ files ↔ k ∈ keys ∧ String.prefix prefix k = true
  | Raises e =>
      e = FileNotFoundError ("No such directory: '" +:+ prefix +:+ "'")
      ∧ ∀ k, k ∈ keys → String.prefix prefix k = false
  end.
Proof.
  intros Hinit Hlist Hkeys.
  pose proof (init_getitem user self "bucket_name" (VStr "esperoj") Hinit eq_refl) as Hb.
  rewrite (list_files_run self _ prefix s Hb), Hlist. simpl.
  case_bool_decide as Hnil.
  - split; [reflexivity|]. intros k Hk.
    destruct (String.prefix prefix k) eqn:Hp; [|reflexivity].
    assert (k ∈ map Object.object_name objects) as Hin by (apply Hkeys; auto).
    rewrite Hnil in Hin. inversion Hin.
  - auto.
Qed.

(** ** delete_files *)

Lemma for_each_app {A B} (xs ys : list A) (acc : B) (body : B → A → M W B)
    (s : Session W) :
  for_each (xs ++ ys) acc body s
  = match for_each xs acc body s with
    | (Returns acc', s') => for_each ys acc' body s'
    | (Raises x, s') => (Raises x, s')
    end.
Proof.
  revert acc s. induction xs as [|x xs IH]; intros acc s; [reflexivity|].
  cbn [app for_each]. unfold mbind, M_bind.
  destruct (body acc x s) as [[acc'|e] s']; [apply IH|reflexivity].
Qed.

Lemma delete_files_unfold (self : S3Storage.t W) (paths : list string)
    (s : Session W) :
  S3Storage.delete_files self paths s
  = match for_each paths [] (delete_step self) s with
    | (Returns errors, s') => (Returns {| errors := errors |}, s')
    | (Raises x, s') => (Raises x, s')
    end.
Proof. reflexivity. Qed.

(** One turn of the loop, by the answer of the client: a success keeps the
    entries, an [S3Error] adds one, any other exception leaves the loop. *)
Lemma delete_step_run (self : S3Storage.t W) (bucket_name : value)
    (acc : list DeleteFileError) (p : string) (s : Session W) :
  getitem (S3Storage.config self) "bucket_name" = Returns bucket_name →
  delete_step self acc p s
  = (match (remove_object (S3Storage.client self) bucket_name p (remote s)).1 with
     | inr _ => Returns acc
     | inl (ExS3Error e) => Returns (acc ++ [{| path := p; message := str e |}])
     | inl x => Raises x
     end,
     {| remote := (remove_object (S3Storage.client self) bucket_name p (remote s)).2;
        calls := calls s ++ [RemoveObject bucket_name p] |}).
Proof.
  intros Hb. unfold delete_step, try_except_S3Error, mbind, M_bind, lift.
  rewrite Hb, invoke_run.
  by destruct (remove_object _ _ _ _) as [[[e| | | |]|[]] w].
Qed.

(** The loop of [delete_files] from any point on, where the client raises
    nothing but [S3Error]: the entries collected so far are kept, every
    remaining path is sent to the client, and each failed removal adds its
    entry at the end. *)
Lemma delete_loop_run (self : S3Storage.t W) (bucket_name : value)
    (paths : list string) :
  getitem (S3Storage.config self) "bucket_name" = Returns bucket_name →
  ∀ (acc : list DeleteFileError) (s : Session W),
  Forall handled
    (removals (S3Storage.client self) bucket_name paths (remote s)).1 →
  for_each paths acc (delete_step self) s
  = (Returns
       (acc ++ omap failure
                 (removals (S3Storage.client self) bucket_name paths (remote s)).1),
     {| remote := (removals (S3Storage.client self) bucket_name paths (remote s)).2;
        calls := calls s ++ map (RemoveObject bucket_name) paths |}).
Proof.
  intros Hb. induction paths as [|p ps IH]; intros acc s Hall.
  - simpl. unfold mret, M_ret. rewrite !app_nil_r. destruct s; reflexivity.
  - cbn [for_each removals] in *. unfold mbind, M_bind.
    rewrite (delete_step_run self bucket_name acc p s Hb).
    destruct (remove_object _ _ _ _) as [r w1]. cbn [fst snd] in *.
    destruct (removals _ _ ps w1) as [rs w2] eqn:Hrs. cbn [fst snd] in *.
    apply Forall_cons in Hall as [Hr Hall]. unfold handled in Hr. simpl in Hr.
    destruct r as [[e| | | |]|[]]; try contradiction;
      rewrite IH by (cbn [remote]; rewrite Hrs; exact Hall);
      cbn [remote calls]; rewrite Hrs; cbn [fst snd];
      rewrite <- !app_assoc; reflexivity.
Qed.

(** The loop ends without an exception only where the client raised nothing
    but [S3Error]. *)
Lemma delete_loop_returns (self : S3Storage.t W) (bucket_name : value)
    (paths : list string) :
  getitem (S3Storage.config self) "bucket_name" = Returns bucket_name →
  ∀ (acc errors : list DeleteFileError) (s s' : Session W),
  for_each paths acc (delete_step self) s = (Returns errors, s') →
  Forall handled
    (removals (S3Storage.client self) bucket_name paths (remote s)).1.
Proof.
  intros Hb. induction paths as [|p ps IH]; intros acc errs s s' Hrun.
  - constructor.
  - cbn [for_each removals] in *. unfold mbind, M_bind in Hrun.
    rewrite (delete_step_run self bucket_name acc p s Hb) in Hrun.
    destruct (remove_object _ _ _ _) as [r w1]. cbn [fst snd] in *.
    destruct (removals _ _ ps w1) as [rs w2] eqn:Hrs. cbn [fst].
    destruct r as [[e| | | |]|[]]; try discriminate Hrun;
      (constructor; [exact I|]);
      apply IH in Hrun; cbn [remote] in Hrun; rewrite Hrs in Hrun; exact Hrun.
Qed.

(** Where the client raises an exception that is not an [S3Error], the loop
    ends there: the exception reaches the caller and the paths that follow
    are not sent. *)
Lemma delete_loop_raises (self : S3Storage.t W) (bucket_name : value)
    (done rest : list string) (p : string) (x : exn)
    (acc : list DeleteFileError) (s : Session W) :
  getitem (S3Storage.config self) "bucket_name" = Returns bucket_name →
  Forall handled
    (removals (S3Storage.client self) bucket_name done (remote s)).1 →
  (remove_object (S3Storage.client self) bucket_name p
     (removals (S3Storage.client self) bucket_name done (remote s)).2).1
  = inl x →
  (∀ e, x ≠ ExS3Error e) →
  for_each (done ++ p :: rest) acc (delete_step self) s
  = (Raises x,
     {| remote :=
          (remove_object (S3Storage.client self) bucket_name p
             (removals (S3Storage.client self) bucket_name done (remote s)).2).2;
        calls := calls s ++ map (RemoveObject bucket_name) (done ++ [p]) |}).
Proof.
  intros Hb Hdone Hp Hx.
  rewrite for_each_app, (delete_loop_run self bucket_name done Hb acc s Hdone).
  cbn [for_each]. unfold mbind, M_bind.
  rewrite (delete_step_run self bucket_name _ p _ Hb). cbn [remote calls].
  rewrite Hp. rewrite map_app, <- app_assoc. cbn [map app].
  destruct x as [e| | | |]; [destruct (Hx e eq_refl)| | | |]; reflexivity.
Qed.

(** What [delete_files] does where the client raises nothing but
    [S3Error]. *)
Lemma delete_files_run (self : S3Storage.t W) (bucket_name : value)
    (paths : list string) (s : Session W) :
  getitem (S3Storage.config self) "bucket_name" = Returns bucket_name →
  Forall handled
    (removals (S3Storage.client self) bucket_name paths (remote s)).1 →
  S3Storage.delete_files self paths s
  = (Returns
       {| errors := omap failure
            (removals (S3Storage.client self) bucket_name paths (remote s)).1 |},
     {| remote := (removals (S3Storage.client self) bucket_name paths (remote s)).2;
        calls := calls s ++ map (RemoveObject bucket_name) paths |}).
Proof.
  intros Hb Hall. rewrite delete_files_unfold.
  rewrite (delete_loop_run self bucket_name paths Hb [] s Hall). reflexivity.
Qed.

Lemma delete_files_returns (self : S3Storage.t W) (bucket_name : value)
    (paths : list string) (s s' : Session W) (resp : DeleteFilesResponse) :
  getitem (S3Storage.config self) "bucket_name" = Returns bucket_name →
  S3Storage.delete_files self paths s = (Returns resp, s') →
  Forall handled
    (removals (S3Storage.client self) bucket_name paths (remote s)).1.
Proof.
  intros Hb. rewrite delete_files_unfold.
  destruct (for_each paths [] (delete_step self) s) as [[errs|x] s1] eqn:Hloop;
    [|discriminate].
  intros _. exact (delete_loop_returns self bucket_name paths Hb _ _ _ _ Hloop).
Qed.

Lemma removals_paths (client : MinioClient W) (bucket_name : value)
    (paths : list string) (w : W) :
  map fst (removals client bucket_name paths w).1 = paths.
Proof.
  revert w. induction paths as [|p ps IH]; intros w; [reflexivity|].
  simpl. destruct (remove_object _ _ _ _) as [r w1].
  specialize (IH w1). destruct (removals _ _ ps w1) as [rs w2].
  simpl in *. by rewrite IH.
Qed.

Lemma failures_sublist (rs : list (string * (exn + unit))) :
  map path (omap failure rs) `sublist_of` map fst rs.
Proof.
  induction rs as [|[p [[e| | | |]|u]] rs IH]; simpl; by constructor.
Qed.

Lemma failures_elem_of (rs : list (string * (exn + unit)))
    (err : DeleteFileError) :
  err ∈ omap failure rs
  ↔ ∃ e, (path err, inl (ExS3Error e)) ∈ rs ∧ message err = str e.
Proof.
  rewrite list_elem_of_omap. split.
  - intros ([p [[e| | | |]|u]] & Hin & Hf); unfold failure in Hf; simpl in Hf;
      try done.
    injection Hf as <-. simpl. eauto.
  - intros (e & Hin & Hm). exists (path err, inl (ExS3Error e)). split; [done|].
    unfold failure. simpl. rewrite <- Hm. by destruct err.
Qed.

(** C3. [delete_files] sends the client the removals in the order of the
    list.  A removal that fails with the client's [S3Error] is recorded as
    one entry, path and message, and the loop goes on.  Where no removal
    fails otherwise, [delete_files] has sent one removal for every path and
    returns a response whose errors hold one entry for each removal that
    failed and none for one that succeeded, so that empty errors mean every
    removal succeeded.  An exception of another class raised by the client
    is not caught: it leaves [delete_files] at that path and the paths that
    follow are not sent. *)
Theorem delete_files_collects_failures (user : gmap string value)
    (self : S3Storage.t W) (paths : list string) (s : Session W) :
  S3Storage.__init__ Minio user = Returns self →
  let bucket_name := default (VStr "esperoj") (user !! "bucket_name") in
  let client := S3Storage.client self in
  let answers := (removals client bucket_name paths (remote s)).1 in
  (Forall handled answers →
   ∃ resp s',
     S3Storage.delete_files self paths s = (Returns resp, s')
     ∧ calls s' = calls s ++ map (RemoveObject bucket_name) paths
     ∧ map fst answers = paths
     ∧ errors resp = omap failure answers
     ∧ (∀ p, p ∈ map path (errors resp)
             ↔ ∃ e, (p, inl (ExS3Error e)) ∈ answers)
     ∧ (errors resp = [] → Forall (λ a, a.2 = inr tt) answers))
  ∧ (∀ done p rest x,
       paths = done ++ p :: rest →
       Forall handled (removals client bucket_name done (remote s)).1 →
       (remove_object client bucket_name p
          (removals client bucket_name done (remote s)).2).1 = inl x →
       (∀ e, x ≠ ExS3Error e) →
       (S3Storage.delete_files self paths s).1 = Raises x
       ∧ calls (S3Storage.delete_files self paths s).2
         = calls s ++ map (RemoveObject bucket_name) (done ++ [p])).
Proof.
  intros Hinit bucket_name client answers.
  pose proof (init_getitem user self "bucket_name" (VStr "esperoj") Hinit eq_refl) as Hb.
  split.
  - intros Hall.
    eexists _, _. split; [exact (delete_files_run self bucket_name paths s Hb Hall)|].
    cbn [calls errors]. fold client answers.
    split; [reflexivity|]. split; [apply removals_paths|]. split; [reflexivity|].
    split.
    + intros p. rewrite list_elem_of_fmap. split.
      * intros (err & -> & Hin). apply failures_elem_of in Hin as (e & Hin & _). eauto.
      * intros (e & Hin).
        exists {| path := p; message := str e |}. split; [reflexivity|].
        apply failures_elem_of. simpl. eauto.
    + intros Hnil. apply Forall_forall. intros [p r] Hin.
      pose proof (proj1 (Forall_forall _ _) Hall _ Hin) as Hr.
      unfold handled in Hr. simpl in Hr.
      destruct r as [[e| | | |]|[]]; try contradiction; [|reflexivity].
      assert ({| path := p; message := str e |} ∈ omap failure answers) as Herr
        by (apply failures_elem_of; simpl; eauto).
      rewrite Hnil in Herr. inversion Herr.
  - intros done p rest x -> Hdone Hp Hx. rewrite delete_files_unfold.
    rewrite (delete_loop_raises self bucket_name done rest p x [] s Hb Hdone Hp Hx).
    split; reflexivity.
Qed.

(** C10. Where the client raises nothing but [S3Error], [delete_files]
    returns; and whenever it returns, the paths of its errors sequence form a
    subsequence of the input list: they are paths of the input, in the order
    of the input.  Each entry carries the text of the failure the client
    reported for the removal of its path. *)
Theorem delete_files_errors_subsequence (user : gmap string value)
    (self : S3Storage.t W) (paths : list string) (s : Session W) :
  S3Storage.__init__ Minio user = Returns self →
  let bucket_name := default (VStr "esperoj") (user !! "bucket_name") in
  let answers :=
    (removals (S3Storage.client self) bucket_name paths (remote s)).1 in
  (Forall handled answers →
   ∃ resp s', S3Storage.delete_files self paths s = (Returns resp, s'))
  ∧ (∀ resp s',
       S3Storage.delete_files self paths s = (Returns resp, s') →
       map path (errors resp) `sublist_of` paths
       ∧ ∀ err, err ∈ errors resp →
           path err ∈ paths
           ∧ ∃ e, (path err, inl (ExS3Error e)) ∈ answers
                  ∧ message err = str e).
Proof.
  intros Hinit bucket_name answers.
  pose proof (init_getitem user self "bucket_name" (VStr "esperoj") Hinit eq_refl) as Hb.
  split.
  - intros Hall. eexists _, _.
    exact (delete_files_run self bucket_name paths s Hb Hall).
  - intros resp s' Hrun.
    pose proof (delete_files_returns self bucket_name paths s s' resp Hb Hrun) as Hall.
    rewrite (delete_files_run self bucket_name paths s Hb Hall) in Hrun.
    injection Hrun as <- _. cbn [errors]. fold answers.
    assert (map path (omap failure answers) `sublist_of` paths) as Hsub.
    { pose proof (failures_sublist answers) as H.
      unfold answers in H at 2. by rewrite removals_paths in H. }
    split; [exact Hsub|].
    intros err Hin. split.
    + eapply elem_of_sublist; [|exact Hsub]. apply list_elem_of_fmap. eauto.
    + by apply failures_elem_of.
Qed.

(** ** get_file and StreamResponse *)

(** Pulling non-empty chunks hands them on and leaves the response alone. *)
Lemma take_chunks_nonempty (resp : HTTPResponse.t) (chunks rest : list bytes)
    (k : nat) :
  Forall (λ c, c ≠ "") chunks →
  (k ≤ length chunks)%nat →
  StreamResponse.take_chunks k
    {| StreamResponse.response := resp; StreamResponse.stream := chunks ++ rest |}
  = (take k chunks,
     {| StreamResponse.response := resp;
        StreamResponse.stream := drop k chunks ++ rest |}).
Proof.
  revert chunks. induction k as [|k IH]; intros chunks Hne Hk; [reflexivity|].
  destruct chunks as [|c chunks]; [simpl in Hk; lia|].
  apply Forall_cons in Hne as [Hc Hne]. simpl in Hk.
  cbn [StreamResponse.take_chunks]. unfold StreamResponse.__next__.
  cbn [StreamResponse.stream StreamResponse.response app].
  unfold StreamResponse.falsy. rewrite bool_decide_eq_false_2 by exact Hc.
  rewrite IH by (auto; lia). reflexivity.
Qed.

(** The pull that meets the empty chunk closes and releases the response
    and ends the loop. *)
Lemma take_chunks_to_empty (resp : HTTPResponse.t) (chunks rest : list bytes)
    (k : nat) :
  Forall (λ c, c ≠ "") chunks →
  (length chunks < k)%nat →
  StreamResponse.take_chunks k
    {| StreamResponse.response := resp;
       StreamResponse.stream := chunks ++ "" :: rest |}
  = (chunks,
     {| StreamResponse.response :=
          HTTPResponse.release_conn (HTTPResponse.close resp);
        StreamResponse.stream := rest |}).
Proof.
  revert chunks. induction k as [|k IH]; intros chunks Hne Hk; [lia|].
  destruct chunks as [|c chunks].
  - reflexivity.
  - apply Forall_cons in Hne as [Hc Hne]. simpl in Hk.
    cbn [StreamResponse.take_chunks]. unfold StreamResponse.__next__.
    cbn [StreamResponse.stream StreamResponse.response app].
    unfold StreamResponse.falsy. rewrite bool_decide_eq_false_2 by exact Hc.
    rewrite IH by (auto; lia). reflexivity.
Qed.

(** Once the generator is exhausted, [next(self.stream)] raises
    [StopIteration] itself and the response is left as it is. *)
Lemma take_chunks_generator_end (resp : HTTPResponse.t) (chunks : list bytes)
    (k : nat) :
  Forall (λ c, c ≠ "") chunks →
  StreamResponse.response
    (StreamResponse.take_chunks k
       {| StreamResponse.response := resp; StreamResponse.stream := chunks |}).2
  = resp.
Proof.
  revert chunks. induction k as [|k IH]; intros chunks Hne; [reflexivity|].
  destruct chunks as [|c chunks]; [reflexivity|].
  apply Forall_cons in Hne as [Hc Hne].
  cbn [StreamResponse.take_chunks]. unfold StreamResponse.__next__.
  cbn [StreamResponse.stream StreamResponse.response].
  unfold StreamResponse.falsy. rewrite bool_decide_eq_false_2 by exact Hc.
  specialize (IH chunks Hne).
  destruct (StreamResponse.take_chunks k _) as [got it']. exact IH.
Qed.

(** What [get_file] returns: the iterator over the response the client
    answered with. *)
Lemma get_file_run (self : S3Storage.t W) (bucket_name : value) (src : string)
    (s : Session W) :
  getitem (S3Storage.config self) "bucket_name" = Returns bucket_name →
  S3Storage.get_file self src s
  = (match (get_object (S3Storage.client self) bucket_name src (remote s)).1 with
     | inr response => Returns (StreamResponse.__init__ response)
     | inl x => Raises x
     end,
     {| remote := (get_object (S3Storage.client self) bucket_name src (remote s)).2;
        calls := calls s ++ [GetObject bucket_name src] |}).
Proof.
  intros Hb. unfold S3Storage.get_file, mbind, M_bind, lift.
  rewrite Hb, invoke_run.
  destruct (get_object _ _ _ _) as [[e|response] w]; reflexivity.
Qed.

(** C2. Let [get_file] return an iterator whose response streams the
    non-empty chunks [chunks] and then an empty chunk.  A consumer that
    iterates to the end receives [chunks], and the response has then been
    closed and its connection released exactly once.  A consumer that leaves
    after at most [length chunks] chunks has received a prefix of [chunks]
    and the response has been neither closed nor released. *)
Theorem get_file_releases_at_empty_chunk (user : gmap string value)
    (self : S3Storage.t W) (src : string) (s s' : Session W)
    (it : StreamResponse.t) (chunks rest : list bytes) :
  S3Storage.__init__ Minio user = Returns self →
  S3Storage.get_file self src s = (Returns it, s') →
  StreamResponse.stream it = chunks ++ "" :: rest →
  Forall (λ c, c ≠ "") chunks →
  let before := StreamResponse.response it in
  ((StreamResponse.exhaust it).1 = chunks
   ∧ HTTPResponse.release_conn_calls
       (StreamResponse.response (StreamResponse.exhaust it).2)
     = S (HTTPResponse.release_conn_calls before)
   ∧ HTTPResponse.close_calls
       (StreamResponse.response (StreamResponse.exhaust it).2)
     = S (HTTPResponse.close_calls before))
  ∧ (∀ k, (k ≤ length chunks)%nat →
       (StreamResponse.take_chunks k it).1 = take k chunks
       ∧ StreamResponse.response (StreamResponse.take_chunks k it).2 = before)
  ∧ HTTPResponse.stream before = StreamResponse.stream it.
Proof.
  intros Hinit Hget Hstream Hne before.
  pose proof (init_getitem user self "bucket_name" (VStr "esperoj") Hinit eq_refl) as Hb.
  rewrite (get_file_run self _ src s Hb) in Hget.
  destruct (get_object _ _ _ _) as [[e|response] w]; simpl in Hget; [congruence|].
  injection Hget as <- <-. subst before.
  unfold StreamResponse.exhaust. rewrite Hstream.
  unfold StreamResponse.__init__ in *. cbn [StreamResponse.stream] in Hstream.
  cbn [StreamResponse.response]. rewrite Hstream.
  split; [|split].
  - rewrite take_chunks_to_empty by (auto; rewrite length_app; simpl; lia).
    auto.
  - intros k Hk. rewrite take_chunks_nonempty by auto. auto.
  - reflexivity.
Qed.

(** ** StreamResponse: what a loop receives and where it leaves the iterator *)

Lemma until_empty_length (chunks : list bytes) :
  (length (until_empty chunks) ≤ length chunks)%nat.
Proof.
  induction chunks as [|c chunks IH]; simpl; [lia|].
  destruct (StreamResponse.falsy c); simpl; lia.
Qed.

Lemma take_chunks_received (resp : HTTPResponse.t) (chunks : list bytes) (k : nat) :
  (StreamResponse.take_chunks k
     {| StreamResponse.response := resp; StreamResponse.stream := chunks |}).1
  = take k (until_empty chunks).
Proof.
  revert resp chunks. induction k as [|k IH]; intros resp chunks; [reflexivity|].
  destruct chunks as [|c chunks]; [reflexivity|].
  cbn [StreamResponse.take_chunks until_empty]. unfold StreamResponse.__next__.
  cbn [StreamResponse.stream StreamResponse.response].
  destruct (StreamResponse.falsy c); [reflexivity|].
  specialize (IH resp chunks).
  destruct (StreamResponse.take_chunks k _) as [got it']. simpl in *.
  by rewrite IH.
Qed.

(** X1. A loop over the iterator receives the chunks of the body in order
    up to, and without, its first empty chunk: all of them when it runs to
    the end, the first [k] of them when it leaves after [k] chunks.  Chunks
    that follow an empty chunk are not received. *)
Theorem stream_yields_chunks_until_empty (it : StreamResponse.t) (k : nat) :
  (StreamResponse.take_chunks k it).1
  = take k (until_empty (StreamResponse.stream it))
  ∧ (StreamResponse.exhaust it).1 = until_empty (StreamResponse.stream it).
Proof.
  destruct it as [resp chunks]. cbn [StreamResponse.stream]. split.
  - apply take_chunks_received.
  - unfold StreamResponse.exhaust. cbn [StreamResponse.stream].
    rewrite take_chunks_received. apply take_ge.
    pose proof (until_empty_length chunks). lia.
Qed.

(** X2. However many chunks a loop takes, [close()] and [release_conn()]
    have been called on the response once each if an empty chunk was among
    the chunks pulled from the body, and not at all otherwise: never twice
    in one loop, and never one without the other. *)
Theorem stream_release_count (it : StreamResponse.t) (k : nat) :
  let after := StreamResponse.response (StreamResponse.take_chunks k it).2 in
  let met_empty :=
    existsb StreamResponse.falsy (take k (StreamResponse.stream it)) in
  HTTPResponse.release_conn_calls after
  = (HTTPResponse.release_conn_calls (StreamResponse.response it)
     + if met_empty then 1 else 0)%nat
  ∧ HTTPResponse.close_calls after
    = (HTTPResponse.close_calls (StreamResponse.response it)
       + if met_empty then 1 else 0)%nat.
Proof.
  destruct it as [resp chunks]. cbn [StreamResponse.stream StreamResponse.response].
  revert resp chunks. induction k as [|k IH]; intros resp chunks.
  - simpl. lia.
  - destruct chunks as [|c chunks]; [simpl; lia|].
    cbn [StreamResponse.take_chunks take existsb]. unfold StreamResponse.__next__.
    cbn [StreamResponse.stream StreamResponse.response].
    destruct (StreamResponse.falsy c); [simpl; lia|].
    specialize (IH resp chunks).
    destruct (StreamResponse.take_chunks k _) as [got it']. exact IH.
Qed.

(** X3. A loop leaves the iterator right after what it pulled: after the
    [k] chunks it took or, where it ended at an empty chunk, after that
    chunk.  The iterator keeps no mark of having ended, so a later loop over
    it goes on with the chunks that follow the empty one. *)
Theorem stream_resume_position (it : StreamResponse.t) (k : nat) :
  StreamResponse.stream (StreamResponse.take_chunks k it).2
  = drop (k `min` S (length (until_empty (StreamResponse.stream it))))
      (StreamResponse.stream it).
Proof.
  destruct it as [resp chunks]. cbn [StreamResponse.stream].
  revert resp chunks. induction k as [|k IH]; intros resp chunks; [reflexivity|].
  destruct chunks as [|c chunks]; [reflexivity|].
  cbn [StreamResponse.take_chunks until_empty]. unfold StreamResponse.__next__.
  cbn [StreamResponse.stream StreamResponse.response].
  destruct (StreamResponse.falsy c).
  - simpl. by destruct k.
  - specialize (IH resp chunks).
    destruct (StreamResponse.take_chunks k _) as [got it']. simpl in *.
    exact IH.
Qed.

(** ** The constructor and the client handle *)

Lemma dict_or_default_idemp (user : gmap string value) :
  dict_or DEFAULT_CONFIG (dict_or DEFAULT_CONFIG user)
  = dict_or DEFAULT_CONFIG user.
Proof.
  apply map_eq. intros k. rewrite !lookup_dict_or.
  by destruct (user !! k), (DEFAULT_CONFIG !! k).
Qed.

Lemma default_dict_or (user : gmap string value) (k : string) (d : value) :
  DEFAULT_CONFIG !! k = Some d →
  default d (dict_or DEFAULT_CONFIG user !! k) = default d (user !! k).
Proof.
  intros Hd. rewrite lookup_dict_or, Hd. by destruct (user !! k).
Qed.

(** The adapter the constructor builds, in full. *)
Lemma init_run (user : gmap string value) :
  S3Storage.__init__ Minio user
  = Returns
      {| S3Storage.config := dict_or DEFAULT_CONFIG user;
         S3Storage.client :=
           Minio (default (VStr "localhost:9000") (user !! "endpoint"))
                 (default (VStr "minioadmin") (user !! "access_key"))
                 (default (VStr "minioadmin") (user !! "secret_key"))
                 (default (VBool true) (user !! "secure"))
                 (default (VStr "eu-central-1") (user !! "region")) |}.
Proof.
  unfold S3Storage.__init__.
  destruct (getitem_dict_or_default user "endpoint" (VStr "localhost:9000"))
    as (v1 & -> & ->); [done|].
  destruct (getitem_dict_or_default user "access_key" (VStr "minioadmin"))
    as (v2 & -> & ->); [done|].
  destruct (getitem_dict_or_default user "secret_key" (VStr "minioadmin"))
    as (v3 & -> & ->); [done|].
  destruct (getitem_dict_or_default user "secure" (VBool true))
    as (v4 & -> & ->); [done|].
  destruct (getitem_dict_or_default user "region" (VStr "eu-central-1"))
    as (v5 & -> & ->); [done|].
  reflexivity.
Qed.

(** X4. The client handle of an adapter the constructor returns is built
    from the merged configuration: each of the five arguments of the
    client's constructor (endpoint, access key, secret key, secure, region)
    is the user's value where the user mapping sets the key and the default
    otherwise; the other keys of the mapping do not reach the constructor. *)
Theorem init_client_from_merged_config (user : gmap string value)
    (self : S3Storage.t W) :
  S3Storage.__init__ Minio user = Returns self →
  S3Storage.client self
  = Minio (default (VStr "localhost:9000") (user !! "endpoint"))
          (default (VStr "minioadmin") (user !! "access_key"))
          (default (VStr "minioadmin") (user !! "secret_key"))
          (default (VBool true) (user !! "secure"))
          (default (VStr "eu-central-1") (user !! "region")).
Proof. rewrite init_run. by intros [= <-]. Qed.

(** X5. Building an adapter from the configuration of an adapter gives that
    adapter again, configuration and client handle: merging the defaults a
    second time changes nothing. *)
Theorem init_of_own_config (user : gmap string value) (self : S3Storage.t W) :
  S3Storage.__init__ Minio user = Returns self →
  S3Storage.__init__ Minio (S3Storage.config self) = Returns self.
Proof.
  rewrite init_run. intros [= <-]. cbn [S3Storage.config].
  rewrite init_run, dict_or_default_idemp.
  by rewrite !default_dict_or.
Qed.

(** ** download_file *)

(** X6. [download_file] sends the client exactly one request, a download of
    the key [src] of the configured bucket to the local path [dst]; it
    returns when the client answers and lets what the client raised, its
    [S3Error] included, reach the caller unchanged. *)
Theorem download_file_one_get (user : gmap string value) (self : S3Storage.t W)
    (src dst : string) (s : Session W) :
  S3Storage.__init__ Minio user = Returns self →
  let bucket_name := default (VStr "esperoj") (user !! "bucket_name") in
  let answer := fget_object (S3Storage.client self) bucket_name src dst (remote s) in
  S3Storage.download_file self src dst s
  = (match answer.1 with
     | inr _ => Returns tt
     | inl x => Raises x
     end,
     {| remote := answer.2; calls := calls s ++ [FgetObject bucket_name src dst] |}).
Proof.
  intros Hinit bucket_name answer.
  pose proof (init_getitem user self "bucket_name" (VStr "esperoj") Hinit eq_refl) as Hb.
  unfold S3Storage.download_file, mbind, M_bind, lift. rewrite Hb, invoke_run.
  fold bucket_name answer. by destruct answer.1 as [e|[]].
Qed.

(** ** get_file *)

(** X7. [get_file] sends the client exactly one request for the object.
    Where the client raises, as it does with an [S3Error] for a key that
    does not exist, [get_file] raises the same and no iterator is made.  Where the client answers,
    the iterator returned holds that very response, not yet closed or
    released by the adapter, and streams its whole body. *)
Theorem get_file_one_request (user : gmap string value) (self : S3Storage.t W)
    (src : string) (s : Session W) :
  S3Storage.__init__ Minio user = Returns self →
  let bucket_name := default (VStr "esperoj") (user !! "bucket_name") in
  let answer := get_object (S3Storage.client self) bucket_name src (remote s) in
  calls (S3Storage.get_file self src s).2 = calls s ++ [GetObject bucket_name src]
  ∧ remote (S3Storage.get_file self src s).2 = answer.2
  ∧ match answer.1 with
    | inl x => (S3Storage.get_file self src s).1 = Raises x
    | inr response =>
        ∃ it, (S3Storage.get_file self src s).1 = Returns it
          ∧ StreamResponse.response it = response
          ∧ StreamResponse.stream it = HTTPResponse.body response
    end.
Proof.
  intros Hinit bucket_name answer.
  pose proof (init_getitem user self "bucket_name" (VStr "esperoj") Hinit eq_refl) as Hb.
  rewrite (get_file_run self bucket_name src s Hb). fold answer. cbn [fst snd calls remote].
  split; [reflexivity|]. split; [reflexivity|].
  destruct answer.1 as [e|response]; [reflexivity|]. eauto.
Qed.

(** ** get_link, list_files: when the client raises *)

(** What [get_link] does, by the answers of the probe and of the signing. *)
Lemma get_link_run (self : S3Storage.t W) (bucket_name : value) (path : string)
    (s : Session W) :
  getitem (S3Storage.config self) "bucket_name" = Returns bucket_name →
  let probe := stat_object (S3Storage.client self) bucket_name path (remote s) in
  let s1 := {| remote := probe.2; calls := calls s ++ [StatObject bucket_name path] |} in
  let signed :=
    presigned_get_object (S3Storage.client self) bucket_name path (Timedelta 7)
      probe.2 in
  S3Storage.get_link self path s
  = match probe.1 with
    | inl (ExS3Error e) =>
        if bool_decide (code e = "NoSuchKey")
        then (Raises (FileNotFoundError ("No such file: '" +:+ path +:+ "'")), s1)
        else (Raises (ExS3Error e), s1)
    | inl x => (Raises x, s1)
    | inr _ =>
        (match signed.1 with
         | inl x => Raises x
         | inr url => Returns url
         end,
         {| remote := signed.2;
            calls := calls s ++ [StatObject bucket_name path;
                                 PresignedGetObject bucket_name path (Timedelta 7)] |})
    end.
Proof.
  intros Hb probe s1 signed. unfold S3Storage.get_link. unfold mbind at 1, M_bind at 1.
  rewrite (file_exists_run self bucket_name path s Hb). fold probe s1.
  destruct probe.1 as [[e| | | |]|stats]; try reflexivity.
  - by destruct (bool_decide (code e = "NoSuchKey")).
  - cbn [negb]. unfold mbind, M_bind, lift. rewrite Hb, invoke_run.
    subst s1. cbn [remote calls]. fold signed. by rewrite <- app_assoc.
Qed.

(** X8. Where the metadata probe of [get_link] fails with an [S3Error] of a
    code other than "NoSuchKey", [get_link] raises that [S3Error] and the
    client has not been asked for a signed URL.  Where the probe succeeds
    and the signing fails, [get_link] raises what the signing raised. *)
Theorem get_link_propagates_errors (user : gmap string value)
    (self : S3Storage.t W) (path : string) (s : Session W) :
  S3Storage.__init__ Minio user = Returns self →
  let bucket_name := default (VStr "esperoj") (user !! "bucket_name") in
  let probe := stat_object (S3Storage.client self) bucket_name path (remote s) in
  let signed :=
    presigned_get_object (S3Storage.client self) bucket_name path (Timedelta 7)
      probe.2 in
  (∀ e, probe.1 = inl (ExS3Error e) → code e ≠ "NoSuchKey" →
     S3Storage.get_link self path s
     = (Raises (ExS3Error e),
        {| remote := probe.2; calls := calls s ++ [StatObject bucket_name path] |}))
  ∧ (∀ stats x, probe.1 = inr stats → signed.1 = inl x →
     S3Storage.get_link self path s
     = (Raises x,
        {| remote := signed.2;
           calls := calls s ++ [StatObject bucket_name path;
                                PresignedGetObject bucket_name path (Timedelta 7)] |})).
Proof.
  intros Hinit bucket_name probe signed.
  pose proof (init_getitem user self "bucket_name" (VStr "esperoj") Hinit eq_refl) as Hb.
  rewrite (get_link_run self bucket_name path s Hb). fold probe signed. split.
  - intros e -> Hc. by rewrite bool_decide_eq_false_2.
  - intros stats x -> ->. reflexivity.
Qed.

(** X9. [list_files] sends the client exactly one listing request, always a
    recursive one.  Where the listing itself fails, what the client raised,
    such as its [S3Error], reaches the caller unchanged: [list_files] does
    not turn it into its [FileNotFoundError]; where it answers with at
    least one entry, [list_files] returns one name per entry, in the order
    of the listing. *)
Theorem list_files_one_recursive_listing (user : gmap string value)
    (self : S3Storage.t W) (path : string) (s : Session W) :
  S3Storage.__init__ Minio user = Returns self →
  let bucket_name := default (VStr "esperoj") (user !! "bucket_name") in
  let answer :=
    list_objects (S3Storage.client self) bucket_name path true (remote s) in
  calls (S3Storage.list_files self path s).2
  = calls s ++ [ListObjects bucket_name path true]
  ∧ (∀ x, answer.1 = inl x → (S3Storage.list_files self path s).1 = Raises x)
  ∧ (∀ objects, answer.1 = inr objects → objects ≠ [] →
       ∃ files, (S3Storage.list_files self path s).1 = Returns files
         ∧ length files = length objects
         ∧ ∀ i, files !! i = Object.object_name <$> objects !! i).
Proof.
  intros Hinit bucket_name answer.
  pose proof (init_getitem user self "bucket_name" (VStr "esperoj") Hinit eq_refl) as Hb.
  rewrite (list_files_run self bucket_name path s Hb). fold answer.
  cbn [fst snd calls]. split; [reflexivity|]. split.
  - by intros e ->.
  - intros objects -> Hne. rewrite bool_decide_eq_false_2.
    + eexists. split; [reflexivity|]. split; [apply length_map|].
      intros i. apply list_lookup_fmap.
    + by destruct objects.
Qed.

(** ** delete_files: composition and silent successes *)

(** The entries collected before a point of the loop are only carried
    along: the loop does from there what it does from an empty list. *)
Lemma delete_loop_acc (self : S3Storage.t W) (bucket_name : value)
    (paths : list string) :
  getitem (S3Storage.config self) "bucket_name" = Returns bucket_name →
  ∀ (acc : list DeleteFileError) (s : Session W),
  for_each paths acc (delete_step self) s
  = match for_each paths [] (delete_step self) s with
    | (Returns errors, s') => (Returns (acc ++ errors), s')
    | (Raises x, s') => (Raises x, s')
    end.
Proof.
  intros Hb. induction paths as [|p ps IH]; intros acc s.
  - simpl. unfold mret, M_ret. by rewrite app_nil_r.
  - cbn [for_each]. unfold mbind, M_bind.
    rewrite !(delete_step_run self bucket_name _ p s Hb).
    destruct (remove_object _ _ _ _) as [[[e| | | |]|[]] w1]; cbn [fst snd];
      try reflexivity.
    + rewrite (IH (acc ++ _)), (IH ([] ++ _)).
      destruct (for_each ps [] _ _) as [[errs|x] s']; [|reflexivity].
      by rewrite <- app_assoc.
    + apply IH.
Qed.

(** X10. Deleting the list [paths1 ++ paths2] in one call is deleting
    [paths1] and then, unless that raised, [paths2]: the same requests reach
    the client, the store and the log end the same, the errors returned are
    those of the first call followed by those of the second, and an
    exception raised by either call is the one the single call raises. *)
Theorem delete_files_app (user : gmap string value) (self : S3Storage.t W)
    (paths1 paths2 : list string) (s : Session W) :
  S3Storage.__init__ Minio user = Returns self →
  let first := S3Storage.delete_files self paths1 s in
  let second := S3Storage.delete_files self paths2 first.2 in
  S3Storage.delete_files self (paths1 ++ paths2) s
  = match first.1 with
    | Raises x => (Raises x, first.2)
    | Returns resp1 =>
        (match second.1 with
         | Raises x => Raises x
         | Returns resp2 => Returns {| errors := errors resp1 ++ errors resp2 |}
         end,
         second.2)
    end.
Proof.
  intros Hinit first second.
  pose proof (init_getitem user self "bucket_name" (VStr "esperoj") Hinit eq_refl) as Hb.
  subst second first. rewrite !delete_files_unfold, for_each_app.
  destruct (for_each paths1 [] _ s) as [[errors1|x] s1]; [|reflexivity].
  cbn [fst snd].
  rewrite (delete_loop_acc self _ paths2 Hb errors1 s1).
  by destruct (for_each paths2 [] _ s1) as [[errors2|x] s2].
Qed.

Lemma failures_length (rs : list (string * (exn + unit))) :
  Forall handled rs →
  (length (omap failure rs)
   + length (List.filter (λ a, if a.2 is inr _ then true else false) rs))%nat
  = length rs.
Proof.
  induction 1 as [|[p r] rs Hr _ IH]; [reflexivity|].
  unfold handled in Hr. simpl in Hr.
  destruct r as [[e| | | |]|[]]; try contradiction.
  - simpl. f_equal. exact IH.
  - simpl. rewrite Nat.add_succ_r. f_equal. exact IH.
Qed.

(** X11. Successes are silent and failures are counted once: whenever
    [delete_files] returns, its errors are empty exactly when every removal
    succeeded, and their number added to the number of removals that
    succeeded is the number of paths given, a path given twice counting
    twice. *)
Theorem delete_files_silent_successes (user : gmap string value)
    (self : S3Storage.t W) (paths : list string) (s s' : Session W)
    (resp : DeleteFilesResponse) :
  S3Storage.__init__ Minio user = Returns self →
  S3Storage.delete_files self paths s = (Returns resp, s') →
  let bucket_name := default (VStr "esperoj") (user !! "bucket_name") in
  let answers :=
    (removals (S3Storage.client self) bucket_name paths (remote s)).1 in
  (errors resp = [] ↔ Forall (λ a, a.2 = inr tt) answers)
  ∧ (length (errors resp)
     + length (List.filter (λ a, if a.2 is inr _ then true else false) answers))%nat
    = length paths.
Proof.
  intros Hinit Hrun bucket_name answers.
  pose proof (init_getitem user self "bucket_name" (VStr "esperoj") Hinit eq_refl) as Hb.
  pose proof (delete_files_returns self bucket_name paths s s' resp Hb Hrun) as Hall.
  rewrite (delete_files_run self bucket_name paths s Hb Hall) in Hrun.
  injection Hrun as <- _. cbn [errors]. fold answers in Hall |- *. split.
  - split.
    + intros Hnil. apply Forall_forall. intros [p r] Hin.
      pose proof (proj1 (Forall_forall _ _) Hall _ Hin) as Hr.
      unfold handled in Hr. simpl in Hr.
      destruct r as [[e| | | |]|[]]; try contradiction; [|reflexivity].
      assert ({| path := p; message := str e |} ∈ omap failure answers) as Herr
        by (apply failures_elem_of; simpl; eauto).
      rewrite Hnil in Herr. inversion Herr.
    + intros Hok. clear Hall. induction Hok as [|[p r] rs Hr _ IH]; [reflexivity|].
      simpl in Hr. subst r. exact IH.
  - rewrite (failures_length answers Hall). unfold answers.
    rewrite <- (length_map fst), removals_paths. reflexivity.
Qed.

(** ** size, file_exists and get_link on the same store *)

(** X12. [size] and [file_exists] ask the client the same question.  On the
    same store, where [size] returns a number the number is not zero and
    [file_exists] returns true; where [file_exists] returns false, [size]
    raises an [S3Error] of code "NoSuchKey". *)
Theorem size_agrees_with_file_exists (user : gmap string value)
    (self : S3Storage.t W) (path : string) (s : Session W) :
  S3Storage.__init__ Minio user = Returns self →
  (S3Storage.size self path s).2 = (S3Storage.file_exists self path s).2
  ∧ (∀ n, (S3Storage.size self path s).1 = Returns n →
       n ≠ 0 ∧ (S3Storage.file_exists self path s).1 = Returns true)
  ∧ ((S3Storage.file_exists self path s).1 = Returns false →
       ∃ e, code e = "NoSuchKey"
         ∧ (S3Storage.size self path s).1 = Raises (ExS3Error e)).
Proof.
  intros Hinit.
  pose proof (init_getitem user self "bucket_name" (VStr "esperoj") Hinit eq_refl) as Hb.
  rewrite (size_run self _ path s Hb), (file_exists_run self _ path s Hb).
  cbn [fst snd]. split; [reflexivity|].
  destruct (stat_object _ _ _ _).1 as [[e| | | |]|stats]; split;
    try (intros n [=]; fail); try (intros [=]; fail).
  - case_bool_decide as Hc; [eauto|intros [=]].
  - intros n. case_bool_decide as Hz; [intros [=]|]. intros [= <-]. auto.
Qed.

(** ** The exceptions a caller can meet *)




(** ** No retries *)

(** X14. [file_exists] and [size] send the client one metadata probe each,
    whatever it answers; [get_link] sends one probe and, only where the probe
    succeeded, one signing request after it.  No request is sent again after
    a failure. *)
Theorem probes_sent_once (user : gmap string value) (self : S3Storage.t W)
    (path : string) (s : Session W) :
  S3Storage.__init__ Minio user = Returns self →
  let bucket_name := default (VStr "esperoj") (user !! "bucket_name") in
  let probe := stat_object (S3Storage.client self) bucket_name path (remote s) in
  calls (S3Storage.file_exists self path s).2
  = calls s ++ [StatObject bucket_name path]
  ∧ calls (S3Storage.size self path s).2
    = calls s ++ [StatObject bucket_name path]
  ∧ calls (S3Storage.get_link self path s).2
    = calls s ++ StatObject bucket_name path
        :: (if probe.1 is inr _
            then [PresignedGetObject bucket_name path (Timedelta 7)] else []).
Proof.
  intros Hinit bucket_name probe.
  pose proof (init_getitem user self "bucket_name" (VStr "esperoj") Hinit eq_refl) as Hb.
  rewrite (file_exists_run self _ path s Hb), (size_run self _ path s Hb),
    (get_link_run self _ path s Hb).
  fold bucket_name probe. split; [reflexivity|]. split; [reflexivity|].
  destruct probe.1 as [[e| | | |]|stats]; try reflexivity.
  by case_bool_decide.
Qed.

End Adapter.

(** * The adapter on the in-memory client *)

Lemma sample_adapter_init :
  S3Storage.__init__ MemoryStore.Minio ∅ = Returns (MemoryStore.adapter ∅).
Proof. reflexivity. Defined.


(** The iterator [get_file] returns for the key "a/1" of the sample. *)
Lemma sample_get_file :
  run (S3Storage.get_file (MemoryStore.adapter ∅) "a/1") MemoryStore.sample
  = (Returns
       (StreamResponse.__init__
          {| HTTPResponse.body := ["hello "; "world"; ""];
             HTTPResponse.close_calls := 0;
             HTTPResponse.release_conn_calls := 0 |}),
     {| remote := MemoryStore.sample;
        calls := [GetObject (VStr "esperoj") "a/1"] |}).
Proof. reflexivity. Defined.

Lemma get_file_releases_at_empty_chunk_witness :
  let it :=
    StreamResponse.__init__
      {| HTTPResponse.body := ["hello "; "world"; ""];
         HTTPResponse.close_calls := 0;
         HTTPResponse.release_conn_calls := 0 |} in
  S3Storage.__init__ MemoryStore.Minio ∅ = Returns (MemoryStore.adapter ∅)
  ∧ (run (S3Storage.get_file (MemoryStore.adapter ∅) "a/1") MemoryStore.sample).1
    = Returns it
  ∧ StreamResponse.stream it = ["hello "; "world"] ++ "" :: []
  ∧ Forall (λ c, c ≠ "") ["hello "; "world"]
  ∧ (StreamResponse.exhaust it).1 = ["hello "; "world"]
  ∧ HTTPResponse.release_conn_calls
      (StreamResponse.response (StreamResponse.exhaust it).2) = 1%nat
  ∧ HTTPResponse.release_conn_calls
      (StreamResponse.response (StreamResponse.take_chunks 1 it).2) = 0%nat.
Proof.
  intros it.
  assert (Forall (λ c : string, c ≠ "") ["hello "; "world"]) as Hne
    by (repeat constructor; discriminate).
  destruct (get_file_releases_at_empty_chunk MemoryStore.Minio ∅
              (MemoryStore.adapter ∅) "a/1" (session MemoryStore.sample) _ it
              ["hello "; "world"] [] sample_adapter_init sample_get_file
              eq_refl Hne) as ((Hall & Hrel & _) & Hearly & _).
  destruct (Hearly 1%nat ltac:(simpl; lia)) as [_ Hresp].
  split; [exact sample_adapter_init|]. split; [reflexivity|].
  split; [reflexivity|]. split; [exact Hne|]. split; [exact Hall|].
  split; [exact Hrel|]. rewrite Hresp. reflexivity.
Defined.

(** C2, as stated, fails: a consumer that takes the first chunk of "a/1" and
    leaves the loop has an iterator whose connection was never released. *)
Lemma get_file_early_exit_never_released :
  ∃ it s',
    run (S3Storage.get_file (MemoryStore.adapter ∅) "a/1") MemoryStore.sample
    = (Returns it, s')
    ∧ (StreamResponse.take_chunks 1 it).1 = ["hello "]
    ∧ HTTPResponse.release_conn_calls
        (StreamResponse.response (StreamResponse.take_chunks 1 it).2) = 0%nat
    ∧ HTTPResponse.release_conn_calls
        (StreamResponse.response (StreamResponse.take_chunks 1 it).2) ≠ 1%nat.
Proof.
  eexists _, _. split; [exact sample_get_file|].
  split; [reflexivity|]. split; [reflexivity|]. simpl. discriminate.
Qed.

(** The same holds at the end of a body that has no empty chunk: the
    generator ends the loop and the release code is not reached. *)
Lemma get_file_generator_end_never_released :
  ∃ it s',
    run (S3Storage.get_file (MemoryStore.adapter ∅) "b/1") MemoryStore.sample
    = (Returns it, s')
    ∧ (StreamResponse.exhaust it).1 = ["x"]
    ∧ HTTPResponse.release_conn_calls
        (StreamResponse.response (StreamResponse.exhaust it).2) = 0%nat.
Proof. eexists _, _. repeat split; reflexivity. Qed.


Lemma rejected_adapter_init :
  S3Storage.__init__ MemoryStore.Minio MemoryStore.stranger
  = Returns MemoryStore.rejected_adapter.
Proof. reflexivity. Defined.

Lemma small_parts_adapter_init :
  S3Storage.__init__ MemoryStore.Minio MemoryStore.small_parts
  = Returns (MemoryStore.adapter MemoryStore.small_parts).
Proof. reflexivity. Defined.

Lemma delete_files_collects_failures_witness :
  S3Storage.__init__ MemoryStore.Minio ∅ = Returns (MemoryStore.adapter ∅)
  ∧ Forall handled
      (removals MemoryStore.client (VStr "esperoj") ["a/1"; "b/1"; "zz"]
         MemoryStore.sample).1
  ∧ (∃ resp s',
       run (S3Storage.delete_files (MemoryStore.adapter ∅) ["a/1"; "b/1"; "zz"])
         MemoryStore.sample = (Returns resp, s')
       ∧ errors resp
         = [{| path := "b/1"; message := str MemoryStore.AccessDenied |}]
       ∧ calls s' = [RemoveObject (VStr "esperoj") "a/1";
                     RemoveObject (VStr "esperoj") "b/1";
                     RemoveObject (VStr "esperoj") "zz"])
  ∧ (run (S3Storage.delete_files (MemoryStore.adapter ∅) ["a/1"; ""; "b/1"])
       MemoryStore.sample).1 = Raises (ValueError "")
  ∧ calls (run (S3Storage.delete_files (MemoryStore.adapter ∅)
                  ["a/1"; ""; "b/1"]) MemoryStore.sample).2
    = [RemoveObject (VStr "esperoj") "a/1"; RemoveObject (VStr "esperoj") ""].
Proof.
  assert (Forall handled
            (removals MemoryStore.client (VStr "esperoj") ["a/1"; "b/1"; "zz"]
               MemoryStore.sample).1) as Hall
    by (repeat (constructor; [exact I|]); constructor).
  split; [exact sample_adapter_init|]. split; [exact Hall|]. split.
  - destruct (delete_files_collects_failures MemoryStore.Minio ∅
                (MemoryStore.adapter ∅) ["a/1"; "b/1"; "zz"]
                (session MemoryStore.sample) sample_adapter_init)
      as (Hreturns & _).
    destruct (Hreturns Hall) as (resp & s' & Hrun & Hcalls & _ & Herr & _).
    exists resp, s'. split; [exact Hrun|]. split; [exact Herr|exact Hcalls].
  - destruct (delete_files_collects_failures MemoryStore.Minio ∅
                (MemoryStore.adapter ∅) ["a/1"; ""; "b/1"]
                (session MemoryStore.sample) sample_adapter_init)
      as (_ & Hraises).
    apply (Hraises ["a/1"] "" ["b/1"] (ValueError "") eq_refl).
    + repeat (constructor; [exact I|]); constructor.
    + reflexivity.
    + intros e. discriminate.
Defined.

(** C3, as stated, fails: the removal of an empty path makes the client raise
    [ValueError], which [delete_files] does not catch; the call raises and
    the path after it is never sent. *)
Lemma delete_files_raises_on_other_exception :
  (run (S3Storage.delete_files (MemoryStore.adapter ∅) ["a/1"; ""; "b/1"])
     MemoryStore.sample).1 = Raises (ValueError "")
  ∧ (∀ resp,
       (run (S3Storage.delete_files (MemoryStore.adapter ∅) ["a/1"; ""; "b/1"])
          MemoryStore.sample).1 ≠ Returns resp)
  ∧ calls (run (S3Storage.delete_files (MemoryStore.adapter ∅)
                  ["a/1"; ""; "b/1"]) MemoryStore.sample).2
    = [RemoveObject (VStr "esperoj") "a/1"; RemoveObject (VStr "esperoj") ""].
Proof. split; [reflexivity|]. split; [intros resp; discriminate|reflexivity]. Qed.

Lemma delete_files_errors_subsequence_witness :
  S3Storage.__init__ MemoryStore.Minio ∅ = Returns (MemoryStore.adapter ∅)
  ∧ ∃ resp s',
      run (S3Storage.delete_files (MemoryStore.adapter ∅) ["b/1"; "a/2"; "b/1"])
        MemoryStore.sample = (Returns resp, s')
      ∧ map path (errors resp) `sublist_of` ["b/1"; "a/2"; "b/1"]
      ∧ ∀ err, err ∈ errors resp → path err ∈ ["b/1"; "a/2"; "b/1"].
Proof.
  split; [exact sample_adapter_init|].
  destruct (delete_files_errors_subsequence MemoryStore.Minio ∅
              (MemoryStore.adapter ∅) ["b/1"; "a/2"; "b/1"]
              (session MemoryStore.sample) sample_adapter_init)
    as (Hreturns & Hinv).
  destruct Hreturns as (resp & s' & Hrun);
    [repeat (constructor; [exact I|]); constructor|].
  destruct (Hinv resp s' Hrun) as (Hsub & Hentries).
  exists resp, s'. split; [exact Hrun|]. split; [exact Hsub|].
  intros err Hin. exact (proj1 (Hentries err Hin)).
Defined.


(** The listing of the sample under "a/" and under "z/". *)
Example sample_list_files :
  (run (S3Storage.list_files (MemoryStore.adapter ∅) "a/")
     MemoryStore.sample).1 = Returns ["a/1"; "a/2"]
  ∧ (run (S3Storage.list_files (MemoryStore.adapter ∅) "z/")
       MemoryStore.sample).1
    = Raises (FileNotFoundError "No such directory: 'z/'").
Proof. split; reflexivity. Qed.

Lemma list_files_keys_or_not_found_witness :
  S3Storage.__init__ MemoryStore.Minio ∅ = Returns (MemoryStore.adapter ∅)
  ∧ list_objects (S3Storage.client (MemoryStore.adapter ∅)) (VStr "esperoj")
      "a/" true MemoryStore.sample
    = (inr [ {| Object.object_name := "a/1"; Object.size := 11 |};
             {| Object.object_name := "a/2"; Object.size := 0 |} ],
       MemoryStore.sample)
  ∧ (∀ k, k ∈ ["a/1"; "a/2"]
          ↔ k ∈ ["a/1"; "a/2"; "b/1"] ∧ String.prefix "a/" k = true)
  ∧ match (S3Storage.list_files (MemoryStore.adapter ∅) "a/"
             (session MemoryStore.sample)).1 with
    | Returns files =>
        files = ["a/1"; "a/2"]
        ∧ files ≠ []
        ∧ ∀ k, k ∈ files
               ↔ k ∈ ["a/1"; "a/2"; "b/1"] ∧ String.prefix "a/" k = true
    | Raises e =>
        e = FileNotFoundError ("No such directory: '" +:+ "a/" +:+ "'")
        ∧ ∀ k, k ∈ ["a/1"; "a/2"; "b/1"] → String.prefix "a/" k = false
    end.
Proof.
  assert (∀ k, k ∈ ["a/1"; "a/2"]
               ↔ k ∈ ["a/1"; "a/2"; "b/1"] ∧ String.prefix "a/" k = true) as Ha.
  { intros k. rewrite !elem_of_cons, !elem_of_nil. split.
    - intros [->|[->|[]]]; auto.
    - intros [[->|[->|[->|[]]]] Hp]; auto. discriminate Hp. }
  split; [exact sample_adapter_init|]. split; [reflexivity|]. split; [exact Ha|].
  exact (list_files_keys_or_not_found MemoryStore.Minio ∅
           (MemoryStore.adapter ∅) "a/" (session MemoryStore.sample)
           ["a/1"; "a/2"; "b/1"] _ _ sample_adapter_init eq_refl Ha).
Defined.


Lemma get_link_checks_existence_first_witness :
  S3Storage.__init__ MemoryStore.Minio ∅ = Returns (MemoryStore.adapter ∅)
  ∧ run (S3Storage.get_link (MemoryStore.adapter ∅) "zz") MemoryStore.sample
    = (Raises (FileNotFoundError "No such file: 'zz'"),
       {| remote := MemoryStore.sample;
          calls := [StatObject (VStr "esperoj") "zz"] |})
  ∧ run (S3Storage.get_link (MemoryStore.adapter ∅) "a/1") MemoryStore.sample
    = (Returns "https://localhost:9000/esperoj/a/1?X-Amz-Signature=0",
       {| remote := MemoryStore.sample;
          calls := [StatObject (VStr "esperoj") "a/1";
                    PresignedGetObject (VStr "esperoj") "a/1" (Timedelta 7)] |}).
Proof.
  split; [exact sample_adapter_init|]. split.
  - destruct (get_link_checks_existence_first MemoryStore.Minio ∅
                (MemoryStore.adapter ∅) "zz" (session MemoryStore.sample)
                sample_adapter_init) as (Hmissing & _).
    exact (proj1 (Hmissing _ eq_refl)).
  - destruct (get_link_checks_existence_first MemoryStore.Minio ∅
                (MemoryStore.adapter ∅) "a/1" (session MemoryStore.sample)
                sample_adapter_init) as (_ & Hfound).
    exact (Hfound _ _ _ eq_refl eq_refl).
Defined.

Lemma size_of_object_and_of_missing_key_witness :
  S3Storage.__init__ MemoryStore.Minio ∅ = Returns (MemoryStore.adapter ∅)
  ∧ (run (S3Storage.size (MemoryStore.adapter ∅) "a/1") MemoryStore.sample).1
    = Returns 11
  ∧ (run (S3Storage.size (MemoryStore.adapter ∅) "zz") MemoryStore.sample).1
    = Raises (ExS3Error MemoryStore.NoSuchKey)
  ∧ ∀ msg,
      (run (S3Storage.size (MemoryStore.adapter ∅) "zz") MemoryStore.sample).1
      ≠ Raises (FileNotFoundError msg).
Proof.
  split; [exact sample_adapter_init|]. split; [|split].
  - destruct (size_of_object_and_of_missing_key MemoryStore.Minio ∅
                (MemoryStore.adapter ∅) "a/1" (session MemoryStore.sample)
                sample_adapter_init) as (Hsize & _).
    exact (Hsize _ eq_refl eq_refl).
  - destruct (size_of_object_and_of_missing_key MemoryStore.Minio ∅
                (MemoryStore.adapter ∅) "zz" (session MemoryStore.sample)
                sample_adapter_init) as (_ & Hmissing).
    exact (proj1 (Hmissing MemoryStore.NoSuchKey eq_refl eq_refl)).
  - destruct (size_of_object_and_of_missing_key MemoryStore.Minio ∅
                (MemoryStore.adapter ∅) "zz" (session MemoryStore.sample)
                sample_adapter_init) as (_ & Hmissing).
    exact (proj2 (Hmissing MemoryStore.NoSuchKey eq_refl eq_refl)).
Defined.


Lemma upload_file_one_put_witness :
  S3Storage.__init__ MemoryStore.Minio MemoryStore.small_parts
  = Returns (MemoryStore.adapter MemoryStore.small_parts)
  ∧ calls (run (S3Storage.upload_file (MemoryStore.adapter MemoryStore.small_parts)
                  "/tmp/report.txt" "c/1") MemoryStore.sample).2
    = [FputObject (VStr "esperoj") "c/1" "/tmp/report.txt" (VInt 5242880)]
  ∧ (run (S3Storage.upload_file (MemoryStore.adapter MemoryStore.small_parts)
            "/tmp/report.txt" "c/1") MemoryStore.sample).1 = Returns tt
  ∧ (run (S3Storage.upload_file (MemoryStore.adapter MemoryStore.small_parts)
            "/tmp/report.txt" "b/1") MemoryStore.sample).1
    = Raises (ExS3Error MemoryStore.AccessDenied).
Proof.
  split; [exact small_parts_adapter_init|].
  destruct (upload_file_one_put MemoryStore.Minio MemoryStore.small_parts
              (MemoryStore.adapter MemoryStore.small_parts)
              "/tmp/report.txt" "c/1" (session MemoryStore.sample)
              small_parts_adapter_init)
    as (bucket_name & part_size & Hb & Hp & Hcalls & _ & Hresult).
  injection Hb as <-. injection Hp as <-.
  split; [exact Hcalls|]. split; [exact Hresult|].
  destruct (upload_file_one_put MemoryStore.Minio MemoryStore.small_parts
              (MemoryStore.adapter MemoryStore.small_parts)
              "/tmp/report.txt" "b/1" (session MemoryStore.sample)
              small_parts_adapter_init)
    as (bucket_name & part_size & Hb & Hp & _ & _ & Hdenied).
  injection Hb as <-. injection Hp as <-. exact Hdenied.
Defined.

(** ** The further properties on the in-memory client *)

Lemma init_client_from_merged_config_witness :
  S3Storage.__init__ MemoryStore.Minio MemoryStore.stranger
  = Returns MemoryStore.rejected_adapter
  ∧ S3Storage.client MemoryStore.rejected_adapter
    = MemoryStore.Minio (VStr "localhost:9000") (VStr "mallory")
        (VStr "minioadmin") (VBool true) (VStr "eu-central-1").
Proof.
  split; [exact rejected_adapter_init|].
  exact (init_client_from_merged_config MemoryStore.Minio MemoryStore.stranger
           MemoryStore.rejected_adapter rejected_adapter_init).
Defined.

Lemma init_of_own_config_witness :
  S3Storage.__init__ MemoryStore.Minio MemoryStore.small_parts
  = Returns (MemoryStore.adapter MemoryStore.small_parts)
  ∧ S3Storage.__init__ MemoryStore.Minio
      (S3Storage.config (MemoryStore.adapter MemoryStore.small_parts))
    = Returns (MemoryStore.adapter MemoryStore.small_parts).
Proof.
  split; [exact small_parts_adapter_init|].
  exact (init_of_own_config MemoryStore.Minio MemoryStore.small_parts
           (MemoryStore.adapter MemoryStore.small_parts) small_parts_adapter_init).
Defined.

Lemma download_file_one_get_witness :
  S3Storage.__init__ MemoryStore.Minio ∅ = Returns (MemoryStore.adapter ∅)
  ∧ run (S3Storage.download_file (MemoryStore.adapter ∅) "a/1" "/tmp/a1")
      MemoryStore.sample
    = (Returns tt,
       {| remote := MemoryStore.sample;
          calls := [FgetObject (VStr "esperoj") "a/1" "/tmp/a1"] |})
  ∧ run (S3Storage.download_file (MemoryStore.adapter ∅) "zz" "/tmp/zz")
      MemoryStore.sample
    = (Raises (ExS3Error MemoryStore.NoSuchKey),
       {| remote := MemoryStore.sample;
          calls := [FgetObject (VStr "esperoj") "zz" "/tmp/zz"] |}).
Proof.
  split; [exact sample_adapter_init|]. split.
  - exact (download_file_one_get MemoryStore.Minio ∅ (MemoryStore.adapter ∅)
             "a/1" "/tmp/a1" (session MemoryStore.sample) sample_adapter_init).
  - exact (download_file_one_get MemoryStore.Minio ∅ (MemoryStore.adapter ∅)
             "zz" "/tmp/zz" (session MemoryStore.sample) sample_adapter_init).
Defined.

Lemma get_file_one_request_witness :
  S3Storage.__init__ MemoryStore.Minio ∅ = Returns (MemoryStore.adapter ∅)
  ∧ calls (run (S3Storage.get_file (MemoryStore.adapter ∅) "zz")
             MemoryStore.sample).2
    = [GetObject (VStr "esperoj") "zz"]
  ∧ (run (S3Storage.get_file (MemoryStore.adapter ∅) "zz") MemoryStore.sample).1
    = Raises (ExS3Error MemoryStore.NoSuchKey)
  ∧ ∃ it,
      (run (S3Storage.get_file (MemoryStore.adapter ∅) "b/1")
         MemoryStore.sample).1 = Returns it
      ∧ StreamResponse.response it
        = {| HTTPResponse.body := ["x"];
             HTTPResponse.close_calls := 0;
             HTTPResponse.release_conn_calls := 0 |}
      ∧ StreamResponse.stream it = ["x"].
Proof.
  split; [exact sample_adapter_init|].
  destruct (get_file_one_request MemoryStore.Minio ∅ (MemoryStore.adapter ∅)
              "zz" (session MemoryStore.sample) sample_adapter_init)
    as (Hcalls & _ & Hraises).
  split; [exact Hcalls|]. split; [exact Hraises|].
  destruct (get_file_one_request MemoryStore.Minio ∅ (MemoryStore.adapter ∅)
              "b/1" (session MemoryStore.sample) sample_adapter_init)
    as (_ & _ & Hreturns).
  exact Hreturns.
Defined.

Lemma get_link_propagates_errors_witness :
  S3Storage.__init__ MemoryStore.Minio MemoryStore.stranger
  = Returns MemoryStore.rejected_adapter
  ∧ run (S3Storage.get_link MemoryStore.rejected_adapter "a/1") MemoryStore.sample
    = (Raises (ExS3Error MemoryStore.InvalidAccessKeyId),
       {| remote := MemoryStore.sample;
          calls := [StatObject (VStr "esperoj") "a/1"] |}).
Proof.
  split; [exact rejected_adapter_init|].
  destruct (get_link_propagates_errors MemoryStore.Minio MemoryStore.stranger
              MemoryStore.rejected_adapter "a/1" (session MemoryStore.sample)
              rejected_adapter_init) as (Hprobe & _).
  apply (Hprobe MemoryStore.InvalidAccessKeyId eq_refl). discriminate.
Defined.

Lemma list_files_one_recursive_listing_witness :
  S3Storage.__init__ MemoryStore.Minio MemoryStore.stranger
  = Returns MemoryStore.rejected_adapter
  ∧ calls (run (S3Storage.list_files MemoryStore.rejected_adapter "a/")
             MemoryStore.sample).2
    = [ListObjects (VStr "esperoj") "a/" true]
  ∧ (run (S3Storage.list_files MemoryStore.rejected_adapter "a/")
       MemoryStore.sample).1
    = Raises (ExS3Error MemoryStore.InvalidAccessKeyId).
Proof.
  split; [exact rejected_adapter_init|].
  destruct (list_files_one_recursive_listing MemoryStore.Minio MemoryStore.stranger
              MemoryStore.rejected_adapter "a/" (session MemoryStore.sample)
              rejected_adapter_init) as (Hcalls & Herror & _).
  split; [exact Hcalls|]. exact (Herror _ eq_refl).
Defined.

Lemma delete_files_app_witness :
  S3Storage.__init__ MemoryStore.Minio ∅ = Returns (MemoryStore.adapter ∅)
  ∧ (run (S3Storage.delete_files (MemoryStore.adapter ∅)
            (["a/1"; "b/1"] ++ ["zz"; "b/1"])) MemoryStore.sample).1
    = Returns
        {| errors :=
             [{| path := "b/1"; message := str MemoryStore.AccessDenied |}]
             ++ [{| path := "b/1"; message := str MemoryStore.AccessDenied |}] |}
  ∧ (run (S3Storage.delete_files (MemoryStore.adapter ∅)
            (["a/1"; "b/1"] ++ [""; "a/2"])) MemoryStore.sample).1
    = Raises (ValueError "").
Proof.
  split; [exact sample_adapter_init|]. split.
  - exact (f_equal fst
             (delete_files_app MemoryStore.Minio ∅ (MemoryStore.adapter ∅)
                ["a/1"; "b/1"] ["zz"; "b/1"] (session MemoryStore.sample)
                sample_adapter_init)).
  - exact (f_equal fst
             (delete_files_app MemoryStore.Minio ∅ (MemoryStore.adapter ∅)
                ["a/1"; "b/1"] [""; "a/2"] (session MemoryStore.sample)
                sample_adapter_init)).
Defined.

Lemma delete_files_silent_successes_witness :
  S3Storage.__init__ MemoryStore.Minio ∅ = Returns (MemoryStore.adapter ∅)
  ∧ ∃ resp s',
      S3Storage.delete_files (MemoryStore.adapter ∅) ["a/1"; "zz"; "a/1"]
        (session MemoryStore.sample) = (Returns resp, s')
      ∧ errors resp = [].
Proof.
  split; [exact sample_adapter_init|].
  eexists _, _. split; [reflexivity|].
  destruct (delete_files_silent_successes MemoryStore.Minio ∅
              (MemoryStore.adapter ∅) ["a/1"; "zz"; "a/1"]
              (session MemoryStore.sample) _ _ sample_adapter_init eq_refl)
    as (Hsilent & _).
  apply Hsilent. repeat constructor.
Defined.

Lemma size_agrees_with_file_exists_witness :
  S3Storage.__init__ MemoryStore.Minio ∅ = Returns (MemoryStore.adapter ∅)
  ∧ (run (S3Storage.size (MemoryStore.adapter ∅) "a/1") MemoryStore.sample).1
    = Returns 11
  ∧ (run (S3Storage.file_exists (MemoryStore.adapter ∅) "a/1")
       MemoryStore.sample).1 = Returns true
  ∧ ∃ e, code e = "NoSuchKey"
      ∧ (run (S3Storage.size (MemoryStore.adapter ∅) "zz") MemoryStore.sample).1
        = Raises (ExS3Error e).
Proof.
  split; [exact sample_adapter_init|]. split; [reflexivity|].
  destruct (size_agrees_with_file_exists MemoryStore.Minio ∅
              (MemoryStore.adapter ∅) "a/1" (session MemoryStore.sample)
              sample_adapter_init) as (_ & Hsize & _).
  split; [exact (proj2 (Hsize 11 eq_refl))|].
  destruct (size_agrees_with_file_exists MemoryStore.Minio ∅
              (MemoryStore.adapter ∅) "zz" (session MemoryStore.sample)
              sample_adapter_init) as (_ & _ & Hmissing).
  exact (Hmissing eq_refl).
Defined.


Lemma probes_sent_once_witness :
  S3Storage.__init__ MemoryStore.Minio ∅ = Returns (MemoryStore.adapter ∅)
  ∧ calls (run (S3Storage.size (MemoryStore.adapter ∅) "zz") MemoryStore.sample).2
    = [StatObject (VStr "esperoj") "zz"]
  ∧ calls (run (S3Storage.get_link (MemoryStore.adapter ∅) "zz")
             MemoryStore.sample).2
    = [StatObject (VStr "esperoj") "zz"]
  ∧ calls (run (S3Storage.get_link (MemoryStore.adapter ∅) "a/1")
             MemoryStore.sample).2
    = [StatObject (VStr "esperoj") "a/1";
       PresignedGetObject (VStr "esperoj") "a/1" (Timedelta 7)].
Proof.
  split; [exact sample_adapter_init|].
  destruct (probes_sent_once MemoryStore.Minio ∅ (MemoryStore.adapter ∅) "zz"
              (session MemoryStore.sample) sample_adapter_init)
    as (_ & Hsize & Hlink).
  split; [exact Hsize|]. split; [exact Hlink|].
  destruct (probes_sent_once MemoryStore.Minio ∅ (MemoryStore.adapter ∅) "a/1"
              (session MemoryStore.sample) sample_adapter_init)
    as (_ & _ & Hfound).
  exact Hfound.
Defined.
